(** * SOAP envelope codec: package [envelope] of goupnp (v2alpha/soap/envelope)

    A shallow embedding of [envelope.go] and the properties of its
    [Write] and [Read] functions.

    Byte slices and Go strings are modelled as [string] (a list of 8-bit
    characters).  The [io.Writer] interface is a type class; the parts of
    [encoding/xml] that the package calls ([EscapeText], [Encoder.Encode],
    [Decoder.Decode]) are modelled next to the code that calls them. *)

From Stdlib Require Import String Ascii List Bool Arith NArith Lia.
Import ListNotations.
Open Scope string_scope.

Set Implicit Arguments.
Set Warnings "-register-all".

(** ** Data model *)

(** [xml.Name]. *)
Record Name := mkName { Space : string; Local : string }.

(** [FaultDetail]: the raw inner XML of the detail element. *)
Record FaultDetail := mkFaultDetail { Raw : string }.

(** [Fault] implements [error] and carries the SOAP fault information. *)
Record Fault := mkFault {
  Code : string;
  String_ : string;
  Actor : string;
  Detail : FaultDetail
}.

(** Go's [error] values that flow through the package: errors of the
    underlying stream, errors of [encoding/xml] with their message, a
    [*xml.SyntaxError] with its [Msg] (the line number is left out), and a
    [*Fault]. *)
Inductive error :=
| ErrStream (msg : string)
| ErrXML (msg : string)
| ErrSyntax (msg : string)
| ErrFault (f : Fault).

(** [Action]: the element name and the arguments; [Args] is [any] in the
    source, here a type parameter. *)
Record Action (P : Type) := mkAction { XMLName : Name; Args : P }.
Arguments mkAction {P} _ _.

(** ** Streams *)

(** [io.Writer]: [Write(p) (n, err)].  The package ignores [n] everywhere,
    so a call is modelled by the new state of the stream and the error. *)
Class Writer (W : Type) := { write : string -> W -> W * option error }.

(** [bytes.Buffer] as a writer: it appends and never fails. *)
#[export] Instance Buffer : Writer string :=
  {| write := fun p buf => (buf ++ p, None) |}.

(** A scripted stream that records every call made on it.  Each call takes
    the next entry of [script]: [Some e] makes the call fail with [e] and
    accept nothing, [None] (or an exhausted script) accepts the bytes. *)
Record Probe := mkProbe {
  accepted : string;
  calls : list string;
  script : list (option error)
}.

Definition probe_write (p : string) (s : Probe) : Probe * option error :=
  match script s with
  | Some e :: rest => (mkProbe (accepted s) (calls s ++ [p]) rest, Some e)
  | None :: rest => (mkProbe (accepted s ++ p) (calls s ++ [p]) rest, None)
  | [] => (mkProbe (accepted s ++ p) (calls s ++ [p]) [], None)
  end.

#[export] Instance ProbeWriter : Writer Probe := {| write := probe_write |}.

Definition probe (sc : list (option error)) : Probe := mkProbe "" [] sc.

(** ** Constants of the written envelope *)

Definition LF : string := String (ascii_of_nat 10) "".
Definition quot : string := String (ascii_of_nat 34) "".

(** [xml.Header] of encoding/xml: the declaration followed by a newline. *)
Definition xml_Header : string :=
  "<?xml version=" ++ quot ++ "1.0" ++ quot ++ " encoding=" ++ quot ++ "UTF-8"
  ++ quot ++ "?>" ++ LF.

Definition soapNS : string := "http://schemas.xmlsoap.org/soap/envelope/".
Definition soapEncoding : string := "http://schemas.xmlsoap.org/soap/encoding/".

Definition envOpen : string :=
  xml_Header ++ "<s:Envelope xmlns:s=" ++ quot ++ soapNS ++ quot
  ++ " s:encodingStyle=" ++ quot ++ soapEncoding ++ quot ++ "><s:Body>".
Definition env1 : string := "<u:".
Definition env2 : string := " xmlns:u=" ++ quot.
Definition env3 : string := quot ++ ">".
Definition env4 : string := "</u:".
Definition env5 : string := ">".
Definition envClose : string := "</s:Body></s:Envelope>".

(** ** encoding/xml: EscapeText *)

(** The value of a byte. *)
Definition byte (c : ascii) : N := N_of_ascii c.

(** The first [n] bytes of [s], and [s] without them. *)
Definition take (n : nat) (s : string) : string := substring 0 n s.

Fixpoint drop (n : nat) (s : string) : string :=
  match n, s with
  | S n', String _ rest => drop n' rest
  | _, _ => s
  end.

(** *** unicode/utf8: DecodeRune

    [first] is the table of the same name: what the first byte of a
    sequence announces.  [AS] is an ASCII byte, [XX] an invalid first
    byte, [Seq size lo hi] the start of a sequence of [size] bytes whose
    second byte lies in [lo..hi]. *)
Inductive firstInfo :=
| AS
| XX
| Seq (size : nat) (lo hi : N).

Definition first (p0 : N) : firstInfo :=
  (if p0 <? 128 then AS
   else if p0 <? 194 then XX
   else if p0 <? 224 then Seq 2 128 191
   else if p0 =? 224 then Seq 3 160 191
   else if p0 <? 237 then Seq 3 128 191
   else if p0 =? 237 then Seq 3 128 159
   else if p0 <? 240 then Seq 3 128 191
   else if p0 =? 240 then Seq 4 144 191
   else if p0 <? 244 then Seq 4 128 191
   else if p0 =? 244 then Seq 4 128 143
   else XX)%N.

Definition RuneError : N := 65533%N.

(** A continuation byte outside [0x80..0xBF]. *)
Definition notCont (b : N) : bool := ((b <? 128) || (191 <? b))%N.

(** [utf8.DecodeRune(p)]: the rune at the start of [p] and its width in
    bytes; [(RuneError, 1)] for an invalid or cut-off sequence and
    [(RuneError, 0)] for empty input. *)
Definition DecodeRune (p : string) : N * nat :=
  match p with
  | EmptyString => (RuneError, 0)
  | String c0 r0 =>
      let p0 := byte c0 in
      match first p0 with
      | AS => (p0, 1)
      | XX => (RuneError, 1)
      | Seq sz lo hi =>
          if Nat.ltb (String.length p) sz then (RuneError, 1)
          else
            match r0 with
            | EmptyString => (RuneError, 1)
            | String c1 r1 =>
                let b1 := byte c1 in
                if ((b1 <? lo) || (hi <? b1))%N then (RuneError, 1)
                else if Nat.leb sz 2 then
                  (N.lor (N.shiftl (N.land p0 31) 6) (N.land b1 63), 2)
                else
                  match r1 with
                  | EmptyString => (RuneError, 1)
                  | String c2 r2 =>
                      let b2 := byte c2 in
                      if notCont b2 then (RuneError, 1)
                      else if Nat.leb sz 3 then
                        (N.lor (N.shiftl (N.land p0 15) 12)
                           (N.lor (N.shiftl (N.land b1 63) 6) (N.land b2 63)),
                         3)
                      else
                        match r2 with
                        | EmptyString => (RuneError, 1)
                        | String c3 _ =>
                            let b3 := byte c3 in
                            if notCont b3 then (RuneError, 1)
                            else
                              (N.lor (N.shiftl (N.land p0 7) 18)
                                 (N.lor (N.shiftl (N.land b1 63) 12)
                                    (N.lor (N.shiftl (N.land b2 63) 6)
                                       (N.land b3 63))),
                               4)
                        end
                  end
            end
      end
  end.

(** *** escapeText *)

(** [isInCharacterRange]: the characters that XML allows. *)
Definition isInCharacterRange (r : N) : bool :=
  ((r =? 9) || (r =? 10) || (r =? 13)
   || ((32 <=? r) && (r <=? 55295))
   || ((57344 <=? r) && (r <=? 65533))
   || ((65536 <=? r) && (r <=? 1114111)))%N.

(** U+FFFD in UTF-8. *)
Definition escFFFD : string :=
  String (ascii_of_nat 239) (String (ascii_of_nat 191) (String (ascii_of_nat 189) "")).

(** The [switch] of [escapeText] on the rune [r] decoded with [width]
    bytes: the replacement to write, or [None] when the bytes of the rune
    are copied. *)
Definition escOf (r : N) (width : nat) : option string :=
  if (r =? 34)%N then Some "&#34;"
  else if (r =? 39)%N then Some "&#39;"
  else if (r =? 38)%N then Some "&amp;"
  else if (r =? 60)%N then Some "&lt;"
  else if (r =? 62)%N then Some "&gt;"
  else if (r =? 9)%N then Some "&#x9;"
  else if (r =? 10)%N then Some "&#xA;"
  else if (r =? 13)%N then Some "&#xD;"
  else if negb (isInCharacterRange r) || ((r =? RuneError)%N && Nat.eqb width 1)
  then Some escFFFD
  else None.

(** The sequence of [w.Write] calls of [escapeText]: at each rune to
    escape, the pending run [s[last:i-width]] and then the replacement;
    at the end the remaining run [s[last:]] (written even when empty).
    One unit of [fuel] is used for each rune; the length of the input is
    enough. *)
Fixpoint escapeLoop (fuel : nat) (pending s : string) : list string :=
  match fuel with
  | 0 => [pending]
  | S fuel' =>
      match s with
      | EmptyString => [pending]
      | String _ _ =>
          let '(r, width) := DecodeRune s in
          match escOf r width with
          | Some esc => pending :: esc :: escapeLoop fuel' "" (drop width s)
          | None =>
              escapeLoop fuel' (pending ++ take width s) (drop width s)
          end
      end
  end.

Definition escapeWrites (pending s : string) : list string :=
  escapeLoop (String.length s) pending s.

(** What the escaper emits for [s] when nothing fails. *)
(** The bytes of a sequence of chunks. *)
Definition joined (chunks : list string) : string :=
  fold_right append "" chunks.

Definition escaped (s : string) : string := joined (escapeWrites "" s).

Section Writing.
Context {W : Type} `{Writer W}.

(** Writes the chunks in order and stops at the first failing call. *)
Fixpoint writeAll (chunks : list string) (w : W) : W * option error :=
  match chunks with
  | [] => (w, None)
  | p :: rest =>
      match write p w with
      | (w', Some e) => (w', Some e)
      | (w', None) => writeAll rest w'
      end
  end.

(** [xml.EscapeText(w, s)]. *)
Definition EscapeText (s : string) (w : W) : W * option error :=
  writeAll (escapeWrites "" s) w.

(** ** encoding/xml: the encoder

    [encodeWrites v] is what [xml.NewEncoder(w).Encode(v)] does with [w]
    for the value [v] when no write fails: the chunks that its buffered
    writer hands to [w.Write], in order, and the marshalling error, if
    there is one, that ends the call after them.  When a write fails, the
    buffered writer keeps the error and makes no further call; for a value
    that marshals without error, [Encode] returns that error.  For a value
    with a marshalling error, encoding/xml returns the write error or the
    marshalling error, depending on the fields of the value: those runs
    are given the write error here and no statement below is about
    them. *)
Variable P : Type.
Variable encodeWrites : P -> list string * option error.

Definition Encode (v : P) (w : W) : W * option error :=
  match writeAll (fst (encodeWrites v)) w with
  | (w', Some e) => (w', Some e)
  | (w', None) => (w', snd (encodeWrites v))
  end.

(** [enc.Flush()] after an [Encode] that returned nil: the buffer is
    empty, nothing is written and nil is returned. *)
Definition Flush (w : W) : W * option error := (w, None).

(** ** Write *)

(** [if err != nil { return err }] followed by the rest of the body. *)
Notation "'check' err 'at' w 'in' k" :=
  (match err with Some e => (w, Some e) | None => k end)
  (at level 10, err at level 0, w at level 0, k at level 200,
   only parsing).

Definition Write (w : W) (action : Action P) : W * option error :=
  let '(w, err) := write envOpen w in
  check err at w in
  let '(w, err) := write env1 w in
  check err at w in
  let '(w, err) := EscapeText (Local (XMLName action)) w in
  check err at w in
  let '(w, err) := write env2 w in
  check err at w in
  let '(w, err) := EscapeText (Space (XMLName action)) w in
  check err at w in
  let '(w, err) := write env3 w in
  check err at w in
  let '(w, err) := Encode (Args action) w in
  check err at w in
  let '(w, err) := Flush w in
  check err at w in
  let '(w, err) := write env4 w in
  check err at w in
  (* the result of this call is dropped; [err] below is still the one
     of the write of [env4] *)
  let '(w, _) := EscapeText (Local (XMLName action)) w in
  check err at w in
  let '(w, err) := write env5 w in
  check err at w in
  write envClose w.

End Writing.

Arguments Write {W _ P} encodeWrites w action.
Arguments Encode {W _ P} encodeWrites v w.


(** ** encoding/xml: the decoded document *)

(** [xml.Attr]. *)
Record Attr := mkAttr { attrName : Name; attrValue : string }.

(** What the decoder's token stream gives for one element: its resolved
    name, its attributes, its content in document order, and the raw bytes
    between its start and end tags (what an [innerxml] field receives).
    Comments, processing instructions and directives are skipped by
    [Unmarshal] and left out. *)
Inductive node :=
| Element (name : Name) (attrs : list Attr) (children : list node)
    (innerxml : string)
| CharData (text : string).

(** The outcome of tokenizing a stream up to the end of its first
    element: the element, or the error (malformed XML, or an error of the
    underlying reader, [io.EOF] included) together with the content that
    was consumed before the error, unclosed elements cut at that point. *)
Inductive parsed :=
| Document (root : node)
| Broken (partial : option node) (err : error).

(** The character data directly inside an element: what a [string] field
    receives. *)
Fixpoint text_of (children : list node) : string :=
  match children with
  | [] => ""
  | CharData t :: rest => t ++ text_of rest
  | Element _ _ _ _ :: rest => text_of rest
  end.

(** Runs [f] over the content of an element, in order, and stops at the
    first error. *)
Fixpoint forEach {S : Type} (f : S -> node -> S * option error)
    (l : list node) (s : S) : S * option error :=
  match l with
  | [] => (s, None)
  | c :: rest =>
      match f s c with
      | (s', Some e) => (s', Some e)
      | (s', None) => forEach f rest s'
      end
  end.

(** ** Fault, as [Unmarshal] fills it

    The field tags [faultcode], [faultstring], [faultactor] and [detail]
    name no namespace: a child matches by its local name. *)

Definition zeroFault : Fault := mkFault "" "" "" (mkFaultDetail "").

Definition unmarshalFaultChild (f : Fault) (c : node) : Fault :=
  match c with
  | Element n _ ch inner =>
      if Local n =? "faultcode" then
        mkFault (text_of ch) (String_ f) (Actor f) (Detail f)
      else if Local n =? "faultstring" then
        mkFault (Code f) (text_of ch) (Actor f) (Detail f)
      else if Local n =? "faultactor" then
        mkFault (Code f) (String_ f) (text_of ch) (Detail f)
      else if Local n =? "detail" then
        mkFault (Code f) (String_ f) (Actor f) (mkFaultDetail inner)
      else f
  | CharData _ => f
  end.

Definition unmarshalFault (f : Fault) (children : list node) : Fault :=
  fold_left unmarshalFaultChild children f.

Section Reading.
(** The payload type and how [Unmarshal] fills it: [unmarshalArgs c args]
    is [d.unmarshal] of one child element [c] of the action element into
    the [Args] field (tag [,any]); it gives the new value of [Args] and
    the error, if any. *)
Variable P : Type.
Variable unmarshalArgs : node -> P -> P * option error.

(** The byte stream and its tokenizer. *)
Variable R : Type.
Variable tokens : R -> parsed.

(** [body]; [Action] is the caller's action, which [Read] stores in the
    body by pointer: the decoder updates it in place. *)
Record body := mkBody { body_Fault : option Fault; body_Action : Action P }.

(** [envelope]. *)
Record envelope := mkEnvelope {
  env_XMLName : Name;
  env_EncodingStyle : string;
  env_Body : body
}.

(** [Action]: [XMLName] has no tag, so any element is accepted and its
    name is stored; each child element goes to [Args]. *)
Definition unmarshalActionChild (args : P) (c : node) : P * option error :=
  match c with
  | Element _ _ _ _ => unmarshalArgs c args
  | CharData _ => (args, None)
  end.

Definition unmarshalAction (a : Action P) (start : node)
    : Action P * option error :=
  match start with
  | Element n _ ch _ =>
      let '(args, err) := forEach unmarshalActionChild ch (Args a) in
      (mkAction n args, err)
  | CharData _ => (a, None)
  end.

(** [body]: a child with local name [Fault], in any namespace, fills the
    [Fault] field (allocated on first use); any other child element goes
    to the [,any] field [Action]. *)
Definition unmarshalBodyChild (b : body) (c : node) : body * option error :=
  match c with
  | Element n _ ch _ =>
      if Local n =? "Fault" then
        let f := match body_Fault b with Some f => f | None => zeroFault end in
        (mkBody (Some (unmarshalFault f ch)) (body_Action b), None)
      else
        let '(a, err) := unmarshalAction (body_Action b) c in
        (mkBody (body_Fault b) a, err)
  | CharData _ => (b, None)
  end.

(** [envelope]: the attribute [encodingStyle] and the child [Body], both
    in the SOAP envelope namespace; other children are skipped. *)
Definition unmarshalEnvelopeAttr (style : string) (a : Attr) : string :=
  if (Local (attrName a) =? "encodingStyle") && (Space (attrName a) =? soapNS)
  then attrValue a else style.

Definition unmarshalEnvelopeChild (env : envelope) (c : node)
    : envelope * option error :=
  match c with
  | Element n _ ch _ =>
      if (Local n =? "Body") && (Space n =? soapNS) then
        let '(b, err) := forEach unmarshalBodyChild ch (env_Body env) in
        (mkEnvelope (env_XMLName env) (env_EncodingStyle env) b, err)
      else (env, None)
  | CharData _ => (env, None)
  end.

Definition unmarshalEnvelope (env : envelope) (start : node)
    : envelope * option error :=
  match start with
  | Element n attrs ch _ =>
      if negb (Local n =? "Envelope") then
        (env, Some (ErrXML ("expected element type <Envelope> but have <"
                            ++ Local n ++ ">")))
      else if negb (Space n =? soapNS) then
        (env, Some (ErrXML ("expected element <Envelope> in name space "
                            ++ soapNS ++ " but have "
                            ++ (if Space n =? "" then "no name space"
                                else Space n))))
      else
        forEach unmarshalEnvelopeChild ch
          (mkEnvelope n
             (fold_left unmarshalEnvelopeAttr attrs (env_EncodingStyle env))
             (env_Body env))
  | CharData _ => (env, None)
  end.

(** [xml.NewDecoder(r).Decode(&env)]: the first element of the stream is
    unmarshalled into [env]; an error of the tokenizer ends the call
    unless unmarshalling what came before it has failed already. *)
Definition Decode (r : R) (env : envelope) : envelope * option error :=
  match tokens r with
  | Document root => unmarshalEnvelope env root
  | Broken None e => (env, Some e)
  | Broken (Some root) e =>
      match unmarshalEnvelope env root with
      | (env', Some e') => (env', Some e')
      | (env', None) => (env', Some e)
      end
  end.

(** ** Read

    The result is the state of the caller's action after the call and
    the returned error. *)
Definition newEnvelope (action : Action P) : envelope :=
  mkEnvelope (mkName "" "") "" (mkBody None action).

Definition Read (r : R) (action : Action P) : Action P * option error :=
  let env := newEnvelope action in
  let '(env, err) := Decode r env in
  match err with
  | Some e => (body_Action (env_Body env), Some e)
  | None =>
      match body_Fault (env_Body env) with
      | Some f => (body_Action (env_Body env), Some (ErrFault f))
      | None => (body_Action (env_Body env), None)
      end
  end.

(** *** What the decoder leaves in the body, read off the document *)

Definition isBody (c : node) : bool :=
  match c with
  | Element n _ _ _ => (Local n =? "Body") && (Space n =? soapNS)
  | CharData _ => false
  end.

Definition isFault (c : node) : bool :=
  match c with
  | Element n _ _ _ => Local n =? "Fault"
  | CharData _ => false
  end.

Definition content (c : node) : list node :=
  match c with
  | Element _ _ ch _ => ch
  | CharData _ => []
  end.

(** The document has a [Fault] element in a SOAP [Body]. *)
Definition hasFault (root : node) : bool :=
  existsb (fun b => isBody b && existsb isFault (content b)) (content root).

(** The fault after one more child of a body. *)
Definition faultStep (f : option Fault) (c : node) : option Fault :=
  if isFault c then
    Some (unmarshalFault (match f with Some f => f | None => zeroFault end)
            (content c))
  else f.

(** The fault described by the document, if it has one. *)
Definition faultOf (root : node) : option Fault :=
  fold_left
    (fun f b => if isBody b then fold_left faultStep (content b) f else f)
    (content root) None.

(** The element name after one more child of a body. *)
Definition nameStep (n : Name) (c : node) : Name :=
  match c with
  | Element q _ _ _ => if Local q =? "Fault" then n else q
  | CharData _ => n
  end.

(** The name of the last element of a [Body] that is not a fault, or
    [n] when there is none. *)
Definition actionNameOf (root : node) (n : Name) : Name :=
  fold_left
    (fun n b => if isBody b then fold_left nameStep (content b) n else n)
    (content root) n.

(** A SOAP envelope with one body of the given content. *)
Definition soapEnvelope (attrs battrs : list Attr) (inner binner : string)
    (bodyContent : list node) : node :=
  Element (mkName soapNS "Envelope") attrs
    [Element (mkName soapNS "Body") battrs bodyContent binner] inner.

End Reading.

(** ** A tokenizer for envelopes

    A reading of the XML that this package writes and receives: a prolog
    of processing instructions and comments, elements with attributes in
    single or double quotes, namespace prefixes resolved as the decoder of
    encoding/xml resolves them, comments, CDATA sections, and character
    data with the predefined entities and the character references that
    [EscapeText] produces.  Directives, other character references and
    the checks of encoding/xml on the characters of names are outside this
    subset.  It instantiates [tokens] for the streams that [Write]
    produces and in the examples. *)

Definition isSpace (c : ascii) : bool :=
  let n := nat_of_ascii c in
  Nat.eqb n 32 || Nat.eqb n 9 || Nat.eqb n 10 || Nat.eqb n 13.

Fixpoint span (p : ascii -> bool) (s : string) : string * string :=
  match s with
  | EmptyString => ("", "")
  | String c rest =>
      if p c then let '(a, b) := span p rest in (String c a, b)
      else ("", s)
  end.

Definition skipSpace (s : string) : string := snd (span isSpace s).

Fixpoint dropPrefix (pre s : string) : option string :=
  match pre, s with
  | EmptyString, _ => Some s
  | String a pre', String b s' =>
      if Ascii.eqb a b then dropPrefix pre' s' else None
  | String _ _, EmptyString => None
  end.

(** The input after the first occurrence of [pat]. *)
Fixpoint skipPast (pat s : string) : option string :=
  match dropPrefix pat s with
  | Some rest => Some rest
  | None =>
      match s with
      | EmptyString => None
      | String _ s' => skipPast pat s'
      end
  end.

Definition entities : list (string * string) :=
  [("&lt;", "<"); ("&gt;", ">"); ("&amp;", "&"); ("&quot;", quot);
   ("&apos;", "'"); ("&#34;", quot); ("&#39;", "'");
   ("&#x9;", String (ascii_of_nat 9) ""); ("&#xA;", LF);
   ("&#xD;", String (ascii_of_nat 13) "")].

Fixpoint entityAt (es : list (string * string)) (s : string)
    : option (string * string) :=
  match es with
  | [] => None
  | (e, v) :: es' =>
      match dropPrefix e s with
      | Some rest => Some (v, rest)
      | None => entityAt es' s
      end
  end.

Fixpoint unescape (fuel : nat) (s : string) : string :=
  match fuel, s with
  | S fuel', String c rest =>
      match entityAt entities s with
      | Some (v, rest') => v ++ unescape fuel' rest'
      | None => String c (unescape fuel' rest)
      end
  | _, _ => s
  end.

Definition unescaped (s : string) : string := unescape (String.length s) s.

(** Prefix bindings in scope, innermost first; [""] is the default
    namespace. *)
Definition nsenv := list (string * string).

Fixpoint lookupNS (pfx : string) (ns : nsenv) : string :=
  match ns with
  | [] => pfx
  | (p, u) :: rest => if p =? pfx then u else lookupNS pfx rest
  end.

Definition isColon (c : ascii) : bool := Nat.eqb (nat_of_ascii c) 58.

(** [prefix:local] split at the first colon. *)
Definition splitName (raw : string) : string * string :=
  match span (fun c => negb (isColon c)) raw with
  | (pfx, String _ (String c l)) =>
      if pfx =? "" then ("", raw) else (pfx, String c l)
  | _ => ("", raw)
  end.

Definition elementName (ns : nsenv) (raw : string) : Name :=
  let '(pfx, l) := splitName raw in mkName (lookupNS pfx ns) l.

Definition attributeName (ns : nsenv) (raw : string) : Name :=
  let '(pfx, l) := splitName raw in
  if pfx =? "" then mkName "" l
  else if pfx =? "xmlns" then mkName "xmlns" l
  else mkName (lookupNS pfx ns) l.

(** The bindings that the attributes of a start tag add. *)
Fixpoint declared (raw : list (string * string)) (ns : nsenv) : nsenv :=
  match raw with
  | [] => ns
  | (n, v) :: rest =>
      let ns' := declared rest ns in
      if n =? "xmlns" then ("", v) :: ns'
      else match splitName n with
           | (pfx, l) => if pfx =? "xmlns" then (l, v) :: ns' else ns'
           end
  end.

Inductive tagEnd := Open | SelfClosed | BadTag (e : error).

Definition isNameEnd (c : ascii) : bool :=
  let n := nat_of_ascii c in
  isSpace c || Nat.eqb n 61 || Nat.eqb n 62 || Nat.eqb n 47.

Definition isQuote (c : ascii) : bool :=
  let n := nat_of_ascii c in Nat.eqb n 34 || Nat.eqb n 39.

Definition syntaxError (msg : string) : error := ErrSyntax msg.

Fixpoint parseAttrs (fuel : nat) (s : string) (acc : list (string * string))
    : list (string * string) * string * tagEnd :=
  match fuel with
  | 0 => (rev acc, s, BadTag (syntaxError "unexpected EOF"))
  | S fuel' =>
      match skipSpace s with
      | EmptyString => (rev acc, "", BadTag (syntaxError "unexpected EOF"))
      | String ">" rest => (rev acc, rest, Open)
      | String "/" (String ">" rest) => (rev acc, rest, SelfClosed)
      | s1 =>
          let '(name, s2) := span (fun c => negb (isNameEnd c)) s1 in
          if name =? "" then
            (rev acc, s2, BadTag (syntaxError "expected attribute name in element"))
          else
            match skipSpace s2 with
            | String "=" s3 =>
                match skipSpace s3 with
                | String q s4 =>
                    if isQuote q then
                      match span (fun c => negb (Ascii.eqb c q)) s4 with
                      | (v, String _ s5) =>
                          parseAttrs fuel' s5 ((name, unescaped v) :: acc)
                      | (_, EmptyString) =>
                          (rev acc, "", BadTag (syntaxError "unexpected EOF"))
                      end
                    else
                      (rev acc, s4,
                       BadTag (syntaxError "unquoted or missing attribute value in element"))
                | EmptyString =>
                    (rev acc, "", BadTag (syntaxError "unexpected EOF"))
                end
            | _ =>
                (rev acc, s2,
                 BadTag (syntaxError "attribute name without = in element"))
            end
      end
  end.

Definition isLt (c : ascii) : bool := Nat.eqb (nat_of_ascii c) 60.
Definition isGt (c : ascii) : bool := Nat.eqb (nat_of_ascii c) 62.

Definition unexpectedEOF : error := syntaxError "unexpected EOF".

(** The input up to the first occurrence of [pat], and the input after
    it. *)
Fixpoint splitAt (pat s : string) : option (string * string) :=
  match dropPrefix pat s with
  | Some rest => Some ("", rest)
  | None =>
      match s with
      | EmptyString => None
      | String c s' =>
          match splitAt pat s' with
          | Some (before, rest) => Some (String c before, rest)
          | None => None
          end
      end
  end.

(** The error for an end tag [closing] that does not match the start tag
    [raw]: it names the local names, or the prefixes when the local names
    agree. *)
Definition closedBy (raw closing : string) : error :=
  let '(p1, l1) := splitName raw in
  let '(p2, l2) := splitName closing in
  if l1 =? l2 then
    syntaxError ("element <" ++ l1 ++ "> in space " ++ p1 ++ " closed by </"
                 ++ l2 ++ "> in space "
                 ++ (if p2 =? "" then quot ++ quot else p2))
  else syntaxError ("element <" ++ l1 ++ "> closed by </" ++ l2 ++ ">").

Definition push (el : option node) (acc : list node) : list node :=
  match el with
  | Some e => e :: acc
  | None => acc
  end.

(** [parseElement] reads an element from just after the [<] of its start
    tag; [parseContent] reads the content of the element [raw] up to and
    including its end tag, and also gives the input as it was at the end
    tag.  On an error they give what was read so far; a start tag that is
    cut off or malformed gives no element. *)
Fixpoint parseElement (fuel : nat) (ns : nsenv) (s : string)
    : option node * string * option error :=
  match fuel with
  | 0 => (None, s, Some unexpectedEOF)
  | S fuel' =>
      let '(raw, s1) := span (fun c => negb (isNameEnd c)) s in
      let '(rawAttrs, s2, e) := parseAttrs (S (String.length s1)) s1 [] in
      let ns' := declared rawAttrs ns in
      let name := elementName ns' raw in
      let attrs :=
        map (fun nv => mkAttr (attributeName ns' (fst nv)) (snd nv)) rawAttrs in
      match e with
      | BadTag err => (None, s2, Some err)
      | SelfClosed => (Some (Element name attrs [] ""), s2, None)
      | Open =>
          let '(ch, atClose, rest, err) := parseContent fuel' ns' raw s2 [] in
          (Some (Element name attrs ch
                   (take (String.length s2 - String.length atClose) s2)),
           rest, err)
      end
  end
with parseContent (fuel : nat) (ns : nsenv) (raw s : string)
    (acc : list node) : list node * string * string * option error :=
  match fuel with
  | 0 => (rev acc, s, s, Some unexpectedEOF)
  | S fuel' =>
      let '(text, s1) := span (fun c => negb (isLt c)) s in
      let acc := if text =? "" then acc else CharData (unescaped text) :: acc in
      match s1 with
      | EmptyString => (rev acc, "", "", Some unexpectedEOF)
      | String _ s2 =>
          match s2 with
          | String "/" s3 =>
              match span (fun c => negb (isGt c)) s3 with
              | (closing, String _ rest) =>
                  if fst (span (fun c => negb (isSpace c)) closing) =? raw
                  then (rev acc, s1, rest, None)
                  else (rev acc, s1, rest,
                        Some (closedBy raw
                                (fst (span (fun c => negb (isSpace c)) closing))))
              | (_, EmptyString) => (rev acc, s1, "", Some unexpectedEOF)
              end
          | String "?" _ =>
              match skipPast "?>" s2 with
              | Some rest => parseContent fuel' ns raw rest acc
              | None => (rev acc, "", "", Some unexpectedEOF)
              end
          | _ =>
              match dropPrefix "!--" s2 with
              | Some s3 =>
                  match skipPast "-->" s3 with
                  | Some rest => parseContent fuel' ns raw rest acc
                  | None => (rev acc, "", "", Some unexpectedEOF)
                  end
              | None =>
                  match dropPrefix "![CDATA[" s2 with
                  | Some s3 =>
                      match splitAt "]]>" s3 with
                      | Some (data, rest) =>
                          parseContent fuel' ns raw rest (CharData data :: acc)
                      | None => (rev acc, "", "", Some unexpectedEOF)
                      end
                  | None =>
                      let '(el, rest, err) := parseElement fuel' ns s2 in
                      match err with
                      | Some e => (rev (push el acc), rest, rest, Some e)
                      | None => parseContent fuel' ns raw rest (push el acc)
                      end
                  end
              end
          end
      end
  end.

(** The prolog, then the first element. *)
Fixpoint prolog (fuel : nat) (s : string) : parsed :=
  match fuel with
  | 0 => Broken None (ErrStream "EOF")
  | S fuel' =>
      match snd (span (fun c => negb (isLt c)) s) with
      | EmptyString => Broken None (ErrStream "EOF")
      | String _ s2 =>
          match s2 with
          | String "?" _ =>
              match skipPast "?>" s2 with
              | Some rest => prolog fuel' rest
              | None => Broken None unexpectedEOF
              end
          | _ =>
              match dropPrefix "!--" s2 with
              | Some s3 =>
                  match skipPast "-->" s3 with
                  | Some rest => prolog fuel' rest
                  | None => Broken None unexpectedEOF
                  end
              | None =>
                  match parseElement (S (String.length s2)) [] s2 with
                  | (Some el, _, None) => Document el
                  | (None, _, None) => Broken None unexpectedEOF
                  | (el, _, Some e) => Broken el e
                  end
              end
          end
      end
  end.

Definition tokenize (s : string) : parsed := prolog (S (String.length s)) s.

(** ** Sample documents and a sample payload *)

(** An element without namespace that holds character data only. *)
Definition leaf (l t : string) : node :=
  Element (mkName "" l) [] [CharData t] t.

(** The fault [Server]/[boom]/[svc1] with the detail [<x>1</x>], as an
    element named [Fault] in the namespace [space]. *)
Definition serverFault (space : string) (attrs : list Attr) : node :=
  Element (mkName space "Fault") attrs
    [leaf "faultcode" "Server"; leaf "faultstring" "boom";
     leaf "faultactor" "svc1";
     Element (mkName "" "detail") [] [leaf "x" "1"] "<x>1</x>"]
    ("<faultcode>Server</faultcode><faultstring>boom</faultstring>"
     ++ "<faultactor>svc1</faultactor><detail><x>1</x></detail>").

Definition serverFault_bytes : string :=
  "<s:Envelope xmlns:s=" ++ quot ++ soapNS ++ quot ++ "><s:Body>"
  ++ "<Fault><faultcode>Server</faultcode><faultstring>boom</faultstring>"
  ++ "<faultactor>svc1</faultactor><detail><x>1</x></detail></Fault>"
  ++ "</s:Body></s:Envelope>".

(** A payload: Go's [struct { Value string }] behind a pointer, in a type
    named [Sample]. *)
Record Sample := mkSample { Value : string }.

Definition encodeSample (v : Sample) : list string * option error :=
  (["<Sample><Value>" ++ escaped (Value v) ++ "</Value></Sample>"], None).

Definition sampleChild (v : Sample) (c : node) : Sample :=
  match c with
  | Element n _ ch _ => if Local n =? "Value" then mkSample (text_of ch) else v
  | CharData _ => v
  end.

Definition unmarshalSample (c : node) (v : Sample) : Sample * option error :=
  match c with
  | Element _ _ ch _ => (fold_left sampleChild ch v, None)
  | CharData _ => (v, None)
  end.

(** A response that carries a fault and, next to it, an action element
    with content. *)
Definition fault_and_action_bytes : string :=
  "<s:Envelope xmlns:s=" ++ quot ++ soapNS ++ quot ++ "><s:Body>"
  ++ "<s:Fault><faultcode>Client</faultcode></s:Fault>"
  ++ "<u:GetStatusResponse xmlns:u=" ++ quot ++ "urn:example" ++ quot
  ++ "><Sample><Value>on</Value></Sample></u:GetStatusResponse>"
  ++ "</s:Body></s:Envelope>".

(** A response cut short after its fault. *)
Definition truncated_bytes : string :=
  "<s:Envelope xmlns:s=" ++ quot ++ soapNS ++ quot ++ "><s:Body>"
  ++ "<s:Fault><faultcode>Client</faultcode></s:Fault>"
  ++ "<u:GetStatusResponse".

(** A response to [GetStatus] under another name. *)
Definition renamed_bytes : string :=
  "<s:Envelope xmlns:s=" ++ quot ++ soapNS ++ quot ++ "><s:Body>"
  ++ "<m:Other xmlns:m=" ++ quot ++ "urn:elsewhere" ++ quot
  ++ "><Sample><Value>on</Value></Sample></m:Other>"
  ++ "</s:Body></s:Envelope>".

(** The root element of a stream that tokenizes without error. *)
Definition rootOf (s : string) : node :=
  match tokenize s with
  | Document root => root
  | Broken _ _ => CharData ""
  end.

(** An action whose element is named [Fault]. *)
Definition faultNamed : Action Sample :=
  mkAction (mkName "urn:example" "Fault") (mkSample "on").

(** ** Default namespace declarations in a byte sequence

    A scan of markup that finds an attribute named [xmlns], without a
    prefix, followed by [=] inside a tag.  [InTag w spaced] holds the word
    read last in the tag and whether white space has followed it. *)
Inductive scanState :=
| InText
| InTag (word : string) (spaced : bool)
| InValue (q : ascii)
| Declared.

Definition isEq (c : ascii) : bool := Nat.eqb (nat_of_ascii c) 61.

Definition scanStep (st : scanState) (c : ascii) : scanState :=
  match st with
  | InText => if isLt c then InTag "" false else InText
  | InTag w sp =>
      if isGt c then InText
      else if isQuote c then InValue c
      else if isEq c then (if w =? "xmlns" then Declared else InTag "" false)
      else if isSpace c then InTag w true
      else if sp then InTag (String c "") false
      else InTag (w ++ String c "") false
  | InValue q => if Ascii.eqb c q then InTag "" false else InValue q
  | Declared => Declared
  end.

Fixpoint scan (st : scanState) (s : string) : scanState :=
  match s with
  | EmptyString => st
  | String c rest => scan (scanStep st c) rest
  end.

Definition declaresDefaultNS (s : string) : bool :=
  match scan InText s with
  | Declared => true
  | _ => false
  end.




(** ** Definitions used in the statements below *)

(** What the escaper makes of one ASCII byte. *)
Definition escByte (c : ascii) : string :=
  match escOf (byte c) 1 with Some esc => esc | None => String c "" end.

(** The bytes of the envelope around a payload [body]. *)
Definition framed (n : Name) (body : string) : string :=
  envOpen ++ env1 ++ escaped (Local n) ++ env2 ++ escaped (Space n) ++ env3
  ++ body ++ env4 ++ escaped (Local n) ++ env5 ++ envClose.

(** An encoder for a payload without content: [Encode(nil)] emits nothing. *)
Definition noArgs (_ : unit) : list string * option error := ([], None).

Definition getStatus : Action unit :=
  mkAction (mkName "urn:example" "GetStatus") tt.

(** The envelope of [GetStatus] written with nothing between the XML
    declaration and the root element. *)
Definition getStatus_one_line : string :=
  "<?xml version=" ++ quot ++ "1.0" ++ quot ++ " encoding=" ++ quot ++ "UTF-8"
  ++ quot ++ "?><s:Envelope xmlns:s=" ++ quot
  ++ "http://schemas.xmlsoap.org/soap/envelope/" ++ quot
  ++ " s:encodingStyle=" ++ quot
  ++ "http://schemas.xmlsoap.org/soap/encoding/" ++ quot
  ++ "><s:Body><u:GetStatus xmlns:u=" ++ quot ++ "urn:example" ++ quot
  ++ "></u:GetStatus></s:Body></s:Envelope>".

(** The same with the line feed that ends [xml.Header]. *)
Definition getStatus_bytes : string :=
  "<?xml version=" ++ quot ++ "1.0" ++ quot ++ " encoding=" ++ quot ++ "UTF-8"
  ++ quot ++ "?>" ++ LF ++ "<s:Envelope xmlns:s=" ++ quot
  ++ "http://schemas.xmlsoap.org/soap/envelope/" ++ quot
  ++ " s:encodingStyle=" ++ quot
  ++ "http://schemas.xmlsoap.org/soap/encoding/" ++ quot
  ++ "><s:Body><u:GetStatus xmlns:u=" ++ quot ++ "urn:example" ++ quot
  ++ "></u:GetStatus></s:Body></s:Envelope>".

(** A stream whose eighth call fails once: for [getStatus] that call is
    the write of the local name of the closing tag. *)
Definition closing_name_failure : list (option error) :=
  [None; None; None; None; None; None; None; Some (ErrStream "broken pipe")].

(** The fault after one more [Body] of an envelope. *)
Definition bodyStep (f : option Fault) (b : node) : option Fault :=
  if isBody b then fold_left faultStep (content b) f else f.

Definition askStatus : Action Sample :=
  mkAction (mkName "urn:example" "GetStatus") (mkSample "").

Definition dq : ascii := ascii_of_nat 34.

(** ** Further definitions: the error message, the stages of Write *)

(** The method [Error] of [Fault]: the format [SOAP fault code=%s: %s]
    applied to [fe.Code] and [fe.String]. *)
Definition Error (fe : Fault) : string :=
  "SOAP fault code=" ++ Code fe ++ ": " ++ String_ fe.

(** The calls that [Write] makes on the stream up to the end of the
    payload, when none fails: [envOpen], the wrapper's open tag, and the
    chunks of the encoder. *)
Definition opening (n : Name) (chunks : list string) : list string :=
  [envOpen; env1] ++ escapeWrites "" (Local n) ++ [env2]
  ++ escapeWrites "" (Space n) ++ [env3] ++ chunks.

(** The calls of [opening] before the payload. *)
Definition openTag (n : Name) : list string :=
  [envOpen; env1] ++ escapeWrites "" (Local n) ++ [env2]
  ++ escapeWrites "" (Space n) ++ [env3].

(** An encoder that rejects its value, as [Encode] does for a value of an
    unnamed struct type: nothing is written. *)
Definition encodeUnsupported (_ : unit) : list string * option error :=
  ([], Some (ErrXML "xml: unsupported type: struct {}")).

(** A stream whose fourth call fails. *)
Definition fourth_call_fails : list (option error) :=
  [None; None; None; Some (ErrStream "broken pipe")].

(** ** Further definitions: what Read takes from a document *)

Definition isText (c : node) : bool :=
  match c with
  | CharData _ => true
  | Element _ _ _ _ => false
  end.

(** The root is an [Envelope] in the SOAP envelope namespace. *)
Definition isEnvelope (root : node) : bool :=
  match root with
  | Element n _ _ _ => (Local n =? "Envelope") && (Space n =? soapNS)
  | CharData _ => false
  end.

(** No SOAP body of the document holds an element. *)
Definition noBodyElement (root : node) : bool :=
  forallb (fun b => negb (isBody b) || forallb isText (content b))
    (content root).

(** Every element in a SOAP body of the document is a fault. *)
Definition onlyFaults (root : node) : bool :=
  forallb (fun b => negb (isBody b)
                    || forallb (fun c => isText c || isFault c) (content b))
    (content root).

(** What an element of a body hands to the payload decoder. *)
Definition payloadOf (c : node) : list node :=
  if isFault c then [] else content c.

(** Everything the document hands to the payload decoder, in document
    order: the content of the elements of SOAP bodies that are not
    faults. *)
Definition payloadElements (root : node) : list node :=
  flat_map (fun b => if isBody b then flat_map payloadOf (content b) else [])
    (content root).

(** The last element with local name [l] among [children]. *)
Fixpoint lastChild (l : string) (children : list node) : option node :=
  match children with
  | [] => None
  | c :: rest =>
      match lastChild l rest with
      | Some d => Some d
      | None =>
          match c with
          | Element n _ _ _ => if Local n =? l then Some c else None
          | CharData _ => None
          end
      end
  end.

Definition innerxmlOf (c : node) : string :=
  match c with
  | Element _ _ _ inner => inner
  | CharData _ => ""
  end.

(** An envelope-shaped document outside the SOAP namespace. *)
Definition not_soap_bytes : string :=
  "<Envelope><Body><Fault><faultcode>Server</faultcode></Fault></Body></Envelope>".

(** A SOAP envelope with an empty body. *)
Definition empty_body_bytes : string :=
  "<s:Envelope xmlns:s=" ++ quot ++ soapNS ++ quot
  ++ "><s:Body></s:Body></s:Envelope>".

(** [renamed_bytes] with an encoding style on the envelope. *)
Definition renamed_styled_bytes : string :=
  "<s:Envelope xmlns:s=" ++ quot ++ soapNS ++ quot
  ++ " s:encodingStyle=" ++ quot ++ "urn:any" ++ quot ++ "><s:Body>"
  ++ "<m:Other xmlns:m=" ++ quot ++ "urn:elsewhere" ++ quot
  ++ "><Sample><Value>on</Value></Sample></m:Other>"
  ++ "</s:Body></s:Envelope>".

(** ** Further definitions: the bytes that the escaper emits *)

(** Every byte of [s] satisfies [p]. *)
Fixpoint allChars (p : ascii -> bool) (s : string) : bool :=
  match s with
  | EmptyString => true
  | String c rest => p c && allChars p rest
  end.

(** The replacements that [escapeText] writes. *)
Definition escapes : list string :=
  ["&#34;"; "&#39;"; "&amp;"; "&lt;"; "&gt;"; "&#x9;"; "&#xA;"; "&#xD;";
   escFFFD].

(** A byte from 0x80 on. *)
Definition high (c : ascii) : bool := (128 <=? byte c)%N.

(** A byte below 0x80. *)
Definition isASCII (c : ascii) : bool := (byte c <? 128)%N.

Definition anyChar (_ : ascii) : bool := true.

Definition notDq (c : ascii) : bool := negb (Ascii.eqb c dq).

Definition notLt (c : ascii) : bool := negb (isLt c).



(** ** Further definitions: the elements of the bodies *)

Definition isElement (c : node) : bool := negb (isText c).

(** The elements inside the SOAP bodies of a document, in document order:
    text between them and the other children of the envelope are left
    out. *)
Definition bodyElements (root : node) : list node :=
  flat_map (fun b => if isBody b then filter isElement (content b) else [])
    (content root).

(** A response with a header, line breaks and indentation, whose body
    holds one element, under another name than [GetStatus]. *)
Definition spaced_bytes : string :=
  "<s:Envelope xmlns:s=" ++ quot ++ soapNS ++ quot ++ ">" ++ LF
  ++ "  <s:Header><x/></s:Header>" ++ LF
  ++ "  <s:Body>" ++ LF
  ++ "    <m:Other xmlns:m=" ++ quot ++ "urn:elsewhere" ++ quot
  ++ "><Sample><Value>on</Value></Sample></m:Other>" ++ LF
  ++ "  </s:Body>" ++ LF ++ "</s:Envelope>".

(** A response whose body holds one element named [Fault] in the
    namespace of the service. *)
Definition fault_named_bytes : string :=
  "<s:Envelope xmlns:s=" ++ quot ++ soapNS ++ quot ++ "><s:Body>"
  ++ "<u:Fault xmlns:u=" ++ quot ++ "urn:example" ++ quot
  ++ "><Sample><Value>on</Value></Sample></u:Fault>"
  ++ "</s:Body></s:Envelope>".

(** ** Further definitions: the envelope read back *)

(** The bytes of an XML name in ASCII: letters, digits, [_], [-], [.]. *)
Definition nameChar (c : ascii) : bool :=
  let n := nat_of_ascii c in
  (Nat.leb 65 n && Nat.leb n 90) || (Nat.leb 97 n && Nat.leb n 122)
  || (Nat.leb 48 n && Nat.leb n 57)
  || Nat.eqb n 95 || Nat.eqb n 45 || Nat.eqb n 46.

(** The prefixes in scope inside the wrapper element that [Write] emits
    for the name [q]. *)
Definition wrapperNS (q : Name) : nsenv :=
  [("u", unescaped (escaped (Space q))); ("s", soapNS)].

(** The end tag of the wrapper and the end of the envelope. *)
Definition wrapperClose (q : Name) : string :=
  env4 ++ Local q ++ env5 ++ envClose.

(** The tokenizer reads the payload bytes [body], where [Write] puts them,
    as the content [ch] of the wrapper element, up to the end tag of the
    wrapper. *)
Definition payloadReads (q : Name) (body : string) (ch : list node) : Prop :=
  forall fuel,
    String.length body < fuel ->
    parseContent fuel (wrapperNS q) ("u:" ++ Local q)
      (body ++ wrapperClose q) []
    = (ch, wrapperClose q, envClose, None).

(** The start tag of the envelope after its [<], followed by [rest]. *)
Definition envelopeText (rest : string) : string :=
  "s:Envelope xmlns:s=" ++ quot ++ soapNS ++ quot
  ++ " s:encodingStyle=" ++ quot ++ soapEncoding ++ quot ++ ">" ++ rest.

(** The wrapper element after its [<], followed by [tail]. *)
Definition wrapperText (q : Name) (body tail : string) : string :=
  "u:" ++ escaped (Local q) ++ env2 ++ escaped (Space q) ++ env3
  ++ body ++ env4 ++ escaped (Local q) ++ env5 ++ tail.

(** An action with a space in its local name. *)
Definition spaceNamed : Action Sample :=
  mkAction (mkName "urn:example" "Get Status") (mkSample "on").

(** The content that the tokenizer gives for the payload of
    [encodeSample] with the value [on]. *)
Definition sampleNodes : list node :=
  [Element (mkName "" "Sample") []
     [Element (mkName "" "Value") [] [CharData "on"] "on"]
     "<Value>on</Value>"].

(** * Properties *)

(** ** Byte strings *)

Lemma append_nil_r (s : string) : s ++ "" = s.
Proof. induction s as [|c s IH]; simpl; [reflexivity | now rewrite IH]. Qed.

Lemma append_assoc (s t u : string) : (s ++ t) ++ u = s ++ t ++ u.
Proof. induction s as [|c s IH]; simpl; [reflexivity | now rewrite IH]. Qed.

Lemma joined_app (l1 l2 : list string) :
  joined (l1 ++ l2) = joined l1 ++ joined l2.
Proof.
  induction l1 as [|x l1 IH]; simpl; [reflexivity|].
  now rewrite IH, append_assoc.
Qed.

(** ** The escaper *)

Lemma take_0 (s : string) : take 0 s = "".
Proof. destruct s; reflexivity. Qed.

Lemma take_S (n : nat) (c : ascii) (s : string) :
  take (S n) (String c s) = String c (take n s).
Proof. reflexivity. Qed.

Lemma allChars_app (p : ascii -> bool) (s t : string) :
  allChars p (s ++ t) = allChars p s && allChars p t.
Proof.
  induction s as [|c s IH]; simpl; [reflexivity|].
  now rewrite IH, andb_assoc.
Qed.

Lemma allChars_drop (p : ascii -> bool) (n : nat) (s : string) :
  allChars p s = true -> allChars p (drop n s) = true.
Proof.
  revert s. induction n as [|n IH]; intros s Hs; [destruct s; exact Hs|].
  destruct s as [|c s]; [exact Hs|]. simpl in *.
  apply andb_prop in Hs. now apply IH.
Qed.

Lemma joined_escapeLoop (fuel : nat) (pending s : string) :
  joined (escapeLoop fuel pending s)
  = pending ++ joined (escapeLoop fuel "" s).
Proof.
  revert pending s. induction fuel as [|f IH]; intros pending s;
    cbn [escapeLoop].
  - simpl. now rewrite append_nil_r.
  - destruct s as [|c r]; [simpl; now rewrite append_nil_r|].
    destruct (DecodeRune (String c r)) as [ru w].
    destruct (escOf ru w) as [esc|].
    + reflexivity.
    + rewrite (IH (pending ++ take w (String c r))).
      rewrite (IH ("" ++ take w (String c r))).
      cbn [append]. now rewrite append_assoc.
Qed.

Lemma joined_escapeWrites (pending s : string) :
  joined (escapeWrites pending s) = pending ++ escaped s.
Proof. apply joined_escapeLoop. Qed.

(** An ASCII byte is a rune of its own, whatever follows it. *)
Lemma DecodeRune_ASCII (c : ascii) (s : string) :
  isASCII c = true -> DecodeRune (String c s) = (byte c, 1).
Proof.
  unfold isASCII, DecodeRune, first. intro H. now rewrite H.
Qed.

Lemma escaped_cons (c : ascii) (s : string) :
  isASCII c = true -> escaped (String c s) = escByte c ++ escaped s.
Proof.
  intro Hc. unfold escaped at 1, escapeWrites, escByte.
  cbn [String.length escapeLoop]. rewrite (DecodeRune_ASCII c s Hc).
  cbn [drop]. destruct (escOf (byte c) 1) as [esc|].
  - reflexivity.
  - rewrite joined_escapeLoop. cbn [append]. rewrite take_S, take_0.
    reflexivity.
Qed.

(** *** The fuel of the escaper *)

Lemma DecodeRune_width (c : ascii) (s : string) :
  1 <= snd (DecodeRune (String c s)).
Proof.
  unfold DecodeRune.
  repeat match goal with
         | |- context [match ?x with _ => _ end] => destruct x
         end; simpl; lia.
Qed.

Lemma length_drop (n : nat) (c : ascii) (s : string) :
  1 <= n -> String.length (drop n (String c s)) <= String.length s.
Proof.
  intro Hn. destruct n as [|n]; [lia|]. cbn [drop]. clear Hn.
  revert s. induction n as [|n IH]; intro s; [destruct s; simpl; lia|].
  destruct s as [|d s]; [simpl; lia|]. cbn [drop String.length].
  specialize (IH s). lia.
Qed.

(** The length of the input is enough fuel: more changes nothing. *)
Lemma escapeLoop_enough (f1 f2 : nat) (pending s : string) :
  String.length s <= f1 -> String.length s <= f2 ->
  escapeLoop f1 pending s = escapeLoop f2 pending s.
Proof.
  revert f2 pending s. induction f1 as [|f1 IH]; intros f2 pending s H1 H2.
  - destruct s; [|simpl in H1; lia]. destruct f2; reflexivity.
  - destruct s as [|c r]; [destruct f2; reflexivity|].
    destruct f2 as [|f2]; [simpl in H2; lia|].
    cbn [escapeLoop].
    pose proof (DecodeRune_width c r) as Hw.
    destruct (DecodeRune (String c r)) as [ru w]. cbn [snd] in Hw.
    pose proof (@length_drop w c r Hw) as Hd. simpl in H1, H2.
    destruct (escOf ru w); [f_equal; f_equal|]; apply IH; lia.
Qed.

(** *** What the escaper can emit *)

Lemma escOf_escapes (r : N) (w : nat) (e : string) :
  escOf r w = Some e -> In e escapes.
Proof.
  unfold escOf.
  repeat match goal with
         | |- context [if ?b then _ else _] => destruct b
         end;
    intro H; inversion H; subst; simpl; tauto.
Qed.

Lemma first_AS (p : N) : first p = AS -> (p <? 128)%N = true.
Proof.
  unfold first. destruct (p <? 128)%N; [reflexivity|].
  repeat match goal with
         | |- context [if ?b then _ else _] => destruct b
         end; discriminate.
Qed.

Lemma first_Seq (p : N) (sz : nat) (lo hi : N) :
  first p = Seq sz lo hi -> (128 <= p)%N /\ (128 <= lo)%N.
Proof.
  unfold first. destruct (p <? 128)%N eqn:Hp; [discriminate|].
  apply N.ltb_ge in Hp.
  repeat match goal with
         | |- context [if ?b then _ else _] => destruct b
         end;
    intro H; inversion H; subst; split; try exact Hp; lia.
Qed.

Lemma notCont_high (c : ascii) : notCont (byte c) = false -> high c = true.
Proof.
  unfold notCont, high. intro H. apply orb_false_elim in H.
  destruct H as [H _]. apply N.ltb_ge in H. now apply N.leb_le.
Qed.

(** The bytes that [escapeText] copies: a rune that is not replaced is an
    ASCII byte or a sequence of bytes from 0x80 on. *)
Lemma DecodeRune_copied (c0 : ascii) (r0 : string) (r : N) (w : nat) :
  DecodeRune (String c0 r0) = (r, w) ->
  escOf r w = None ->
  (w = 1 /\ r = byte c0 /\ isASCII c0 = true)
  \/ allChars high (take w (String c0 r0)) = true.
Proof.
  unfold DecodeRune. intros Hdec Hesc.
  assert (Herr : forall x : N * nat, (RuneError, 1) = x -> x <> (r, w)).
  { intros x <- Heq. inversion Heq; subst. vm_compute in Hesc. discriminate. }
  destruct (first (byte c0)) as [| |sz lo hi] eqn:Hf.
  - inversion Hdec; subst. left. repeat split. now apply first_AS.
  - exfalso. exact (Herr _ eq_refl Hdec).
  - right. destruct (first_Seq _ Hf) as [Hp Hlo].
    assert (H0 : high c0 = true) by (now apply N.leb_le).
    destruct (Nat.ltb (String.length (String c0 r0)) sz);
      [exfalso; exact (Herr _ eq_refl Hdec)|].
    destruct r0 as [|c1 r1]; [exfalso; exact (Herr _ eq_refl Hdec)|].
    destruct ((byte c1 <? lo) || (hi <? byte c1))%N eqn:Hb1;
      [exfalso; exact (Herr _ eq_refl Hdec)|].
    assert (H1 : high c1 = true).
    { apply orb_false_elim in Hb1. destruct Hb1 as [Hb1 _].
      apply N.ltb_ge in Hb1. apply N.leb_le. lia. }
    destruct (Nat.leb sz 2).
    { inversion Hdec; subst. rewrite !take_S, take_0. simpl.
      now rewrite H0, H1. }
    destruct r1 as [|c2 r2]; [exfalso; exact (Herr _ eq_refl Hdec)|].
    destruct (notCont (byte c2)) eqn:Hb2;
      [exfalso; exact (Herr _ eq_refl Hdec)|].
    apply notCont_high in Hb2.
    destruct (Nat.leb sz 3).
    { inversion Hdec; subst. rewrite !take_S, take_0. simpl.
      now rewrite H0, H1, Hb2. }
    destruct r2 as [|c3 r3]; [exfalso; exact (Herr _ eq_refl Hdec)|].
    destruct (notCont (byte c3)) eqn:Hb3;
      [exfalso; exact (Herr _ eq_refl Hdec)|].
    apply notCont_high in Hb3.
    inversion Hdec; subst. rewrite !take_S, take_0. simpl.
    now rewrite H0, H1, Hb2, Hb3.
Qed.

(** A property [out] of bytes holds of everything the escaper emits for
    input whose bytes satisfy [inp], when it holds of the replacements, of
    the bytes from 0x80 on and of the ASCII bytes of the input that are
    copied. *)
Lemma escapeLoop_chars (inp out : ascii -> bool) :
  forallb (allChars out) escapes = true ->
  (forall c, high c = true -> out c = true) ->
  (forall c, inp c = true -> isASCII c = true -> escOf (byte c) 1 = None ->
             out c = true) ->
  forall (fuel : nat) (pending s : string),
    allChars inp s = true ->
    allChars out pending = true ->
    allChars out (joined (escapeLoop fuel pending s)) = true.
Proof.
  intros Hesc Hhigh Hcopy.
  assert (Hhighs : forall t, allChars high t = true -> allChars out t = true).
  { induction t as [|c t IH]; simpl; [reflexivity|].
    intro H. apply andb_prop in H. destruct H as [Hc Ht].
    now rewrite (Hhigh c Hc), (IH Ht). }
  induction fuel as [|f IH]; intros pending s Hs Hp; cbn [escapeLoop].
  - simpl. now rewrite append_nil_r.
  - destruct s as [|c r]; [simpl; now rewrite append_nil_r|].
    destruct (DecodeRune (String c r)) as [ru w] eqn:Hdec.
    destruct (escOf ru w) as [esc|] eqn:He.
    + cbn [joined fold_right]. rewrite !allChars_app, Hp.
      apply escOf_escapes in He.
      rewrite forallb_forall in Hesc. rewrite (Hesc esc He).
      apply (IH "" (drop w (String c r))); [|reflexivity].
      now apply allChars_drop.
    + apply IH; [now apply allChars_drop|].
      rewrite allChars_app, Hp.
      destruct (DecodeRune_copied c r Hdec He) as [(-> & -> & Hascii)|Hh].
      * rewrite take_S, take_0. simpl. simpl in Hs.
        apply andb_prop in Hs. destruct Hs as [Hc _].
        now rewrite (Hcopy c Hc Hascii He).
      * now apply Hhighs.
Qed.

Lemma escaped_chars (inp out : ascii -> bool) (s : string) :
  forallb (allChars out) escapes = true ->
  (forall c, high c = true -> out c = true) ->
  (forall c, inp c = true -> isASCII c = true -> escOf (byte c) 1 = None ->
             out c = true) ->
  allChars inp s = true ->
  allChars out (escaped s) = true.
Proof.
  intros Hesc Hhigh Hcopy Hs.
  now apply (escapeLoop_chars inp out Hesc Hhigh Hcopy).
Qed.

(** The escaper never emits a double quote or a [<]. *)
Lemma escaped_notDq (s : string) : allChars notDq (escaped s) = true.
Proof.
  apply (escaped_chars anyChar notDq).
  - reflexivity.
  - intro c. destruct c as [[] [] [] [] [] [] [] []]; vm_compute; congruence.
  - intro c. destruct c as [[] [] [] [] [] [] [] []]; vm_compute; congruence.
  - induction s as [|c s IH]; [reflexivity|exact IH].
Qed.

Lemma escaped_notLt (s : string) : allChars notLt (escaped s) = true.
Proof.
  apply (escaped_chars anyChar notLt).
  - reflexivity.
  - intro c. destruct c as [[] [] [] [] [] [] [] []]; vm_compute; congruence.
  - intro c. destruct c as [[] [] [] [] [] [] [] []]; vm_compute; congruence.
  - induction s as [|c s IH]; [reflexivity|exact IH].
Qed.

(** ** Write on a buffer *)

Lemma writeAll_Buffer (chunks : list string) (buf : string) :
  writeAll chunks buf = (buf ++ joined chunks, None).
Proof.
  revert buf. induction chunks as [|p rest IH]; intro buf; simpl.
  - now rewrite append_nil_r.
  - now rewrite IH, append_assoc.
Qed.

Lemma EscapeText_Buffer (s buf : string) :
  EscapeText s buf = (buf ++ escaped s, None).
Proof. unfold EscapeText. now rewrite writeAll_Buffer. Qed.

Lemma Write_Buffer (P : Type) (enc : P -> list string * option error)
    (a : Action P) (buf : string) :
  snd (enc (Args a)) = None ->
  Write enc buf a = (buf ++ framed (XMLName a) (joined (fst (enc (Args a)))), None).
Proof.
  intro Henc. unfold Write, Encode, Flush, framed.
  repeat (cbn [write Buffer]; rewrite ?EscapeText_Buffer, ?writeAll_Buffer, ?Henc).
  now rewrite !append_assoc.
Qed.

(** ** Framing of a concrete action *)

(** C3, as stated, fails: the bytes written for [GetStatus] with an empty
    payload are not the one-line envelope, because [envOpen] starts with
    [xml.Header], which ends in a line feed. *)
Lemma Write_GetStatus_not_one_line :
  fst (Write noArgs "" getStatus) <> getStatus_one_line.
Proof.
  apply String.eqb_neq. vm_compute. reflexivity.
Qed.

(** C3, amended: [Write] of the action [GetStatus] in [urn:example] with a
    payload for which the encoder emits nothing succeeds on a buffer and
    produces exactly the XML declaration, a line feed, and the envelope
    with the [u:GetStatus] wrapper, byte for byte. *)
Theorem Write_GetStatus_exact (P : Type)
    (enc : P -> list string * option error) (args : P) :
  joined (fst (enc args)) = "" ->
  snd (enc args) = None ->
  Write enc "" (mkAction (mkName "urn:example" "GetStatus") args)
  = (getStatus_bytes, None).
Proof.
  intros Hbytes Herr.
  rewrite Write_Buffer by exact Herr.
  cbn [Args XMLName]. rewrite Hbytes. reflexivity.
Qed.

Lemma Write_GetStatus_exact_witness :
  Write noArgs "" getStatus = (getStatus_bytes, None).
Proof.
  apply (@Write_GetStatus_exact unit noArgs tt); reflexivity.
Defined.

(** ** Escaping of the names *)

(** C5: on a buffer, whatever the payload does, the wrapper open tag that
    [Write] emits after [envOpen] carries the local name and the namespace
    as [xml.EscapeText] escapes them.  Every ASCII byte of a name is
    escaped on its own, [<], [&] and the double quote as [&lt;], [&amp;]
    and [&#34;]; no [<] and no double quote of a name reaches the output;
    [urn:a&b] is emitted as [urn:a&amp;b]. *)
Theorem Write_escapes_names (P : Type)
    (enc : P -> list string * option error) (a : Action P) (buf : string) :
  (exists rest,
     fst (Write enc buf a)
     = buf ++ envOpen ++ "<u:" ++ escaped (Local (XMLName a))
       ++ " xmlns:u=" ++ quot ++ escaped (Space (XMLName a)) ++ quot ++ ">"
       ++ rest)
  /\ (forall s b, EscapeText s b = (b ++ escaped s, None))
  /\ (forall c s, isASCII c = true ->
                  escaped (String c s) = escByte c ++ escaped s)
  /\ (forall s, allChars notLt (escaped s) = true
                /\ allChars notDq (escaped s) = true)
  /\ escByte "<" = "&lt;" /\ escByte "&" = "&amp;"
  /\ escByte (ascii_of_nat 34) = "&#34;"
  /\ escaped "urn:a&b" = "urn:a&amp;b".
Proof.
  split; [|split; [exact EscapeText_Buffer|split; [exact escaped_cons|split]]].
  - unfold Write, Encode, Flush.
    repeat (cbn [write Buffer fst]; rewrite ?EscapeText_Buffer, ?writeAll_Buffer).
    destruct (snd (enc (Args a))) as [e|].
    + exists (joined (fst (enc (Args a)))). cbn [fst].
      unfold env1, env2, env3. now rewrite !append_assoc.
    + repeat (cbn [write Buffer fst]; rewrite ?EscapeText_Buffer).
      exists (joined (fst (enc (Args a))) ++ env4
              ++ escaped (Local (XMLName a)) ++ env5 ++ envClose).
      unfold env1, env2, env3. now rewrite !append_assoc.
  - intro s. split; [apply escaped_notLt|apply escaped_notDq].
  - repeat split; vm_compute; reflexivity.
Qed.

(** ** Errors of the stream *)

(** C2 at the failing input: the write of the escaped local name of the
    closing tag fails, yet [Write] goes on to write [env5] and [envClose]
    and returns nil. *)
Lemma Write_drops_closing_name_error :
  snd (Write noArgs (probe closing_name_failure) getStatus) = None
  /\ calls (fst (Write noArgs (probe closing_name_failure) getStatus))
     = [envOpen; env1; "GetStatus"; env2; "urn:example"; env3;
        env4; "GetStatus"; env5; envClose]
  /\ accepted (fst (Write noArgs (probe closing_name_failure) getStatus))
     = envOpen ++ env1 ++ "GetStatus" ++ env2 ++ "urn:example" ++ env3
       ++ env4 ++ env5 ++ envClose.
Proof. repeat split; vm_compute; reflexivity. Qed.

(** The same failure one stage earlier, at the local name of the opening
    tag, is returned at once and nothing more is written. *)
Example Write_stops_at_opening_name_error :
  snd (Write noArgs (probe [None; None; Some (ErrStream "broken pipe")]) getStatus)
  = Some (ErrStream "broken pipe")
  /\ calls (fst (Write noArgs (probe [None; None; Some (ErrStream "broken pipe")])
                   getStatus))
     = [envOpen; env1; "GetStatus"].
Proof. split; vm_compute; reflexivity. Qed.

(** ** Read: the decoder's effect on the body *)

Section ReadingFacts.
Variable P : Type.
Variable unmarshalArgs : node -> P -> P * option error.
Variable R : Type.
Variable tokens : R -> parsed.

Local Abbreviation bodyChild := (unmarshalBodyChild unmarshalArgs).
Local Abbreviation envChild := (unmarshalEnvelopeChild unmarshalArgs).

Lemma unmarshalBodyChild_fault (b : body P) (c : node) :
  body_Fault (fst (bodyChild b c)) = faultStep (body_Fault b) c.
Proof.
  unfold faultStep. destruct c as [n at_ ch inner|t]; simpl; [|reflexivity].
  destruct (Local n =? "Fault"); simpl; [reflexivity|].
  destruct (forEach _ ch _) as [args err]. reflexivity.
Qed.

Lemma unmarshalBodyChild_name (b : body P) (c : node) :
  XMLName (body_Action (fst (bodyChild b c)))
  = nameStep (XMLName (body_Action b)) c.
Proof.
  destruct c as [n at_ ch inner|t]; simpl; [|reflexivity].
  destruct (Local n =? "Fault"); simpl; [reflexivity|].
  destruct (forEach _ ch _) as [args err]. reflexivity.
Qed.

(** A body that was unmarshalled without error holds the fault and the
    element name that its content describes. *)
Lemma forEach_body (ch : list node) (b b' : body P) :
  forEach bodyChild ch b = (b', None) ->
  body_Fault b' = fold_left faultStep ch (body_Fault b)
  /\ XMLName (body_Action b')
     = fold_left nameStep ch (XMLName (body_Action b)).
Proof.
  revert b. induction ch as [|c ch IH]; intros b Hrun; simpl in *.
  - inversion Hrun; subst. split; reflexivity.
  - pose proof (unmarshalBodyChild_fault b c) as Hf.
    pose proof (unmarshalBodyChild_name b c) as Hn.
    destruct (bodyChild b c) as [b1 [e|]]; [discriminate|].
    simpl in Hf, Hn. rewrite <- Hf, <- Hn. now apply IH.
Qed.

Lemma unmarshalEnvelopeChild_body (env env' : envelope P) (c : node) :
  envChild env c = (env', None) ->
  body_Fault (env_Body env')
  = (if isBody c then fold_left faultStep (content c)
                        (body_Fault (env_Body env))
     else body_Fault (env_Body env))
  /\ XMLName (body_Action (env_Body env'))
     = (if isBody c then fold_left nameStep (content c)
                           (XMLName (body_Action (env_Body env)))
        else XMLName (body_Action (env_Body env))).
Proof.
  destruct c as [n at_ ch inner|t]; simpl.
  - destruct ((Local n =? "Body") && (Space n =? soapNS)).
    + destruct (forEach bodyChild ch (env_Body env)) as [b err] eqn:Hrun.
      intro Heq; inversion Heq; subst; simpl.
      now apply forEach_body.
    + intro Heq; inversion Heq; subst. split; reflexivity.
  - intro Heq; inversion Heq; subst. split; reflexivity.
Qed.

Lemma forEach_envelope (ch : list node) (env env' : envelope P) :
  forEach envChild ch env = (env', None) ->
  body_Fault (env_Body env')
  = fold_left
      (fun f b => if isBody b then fold_left faultStep (content b) f else f)
      ch (body_Fault (env_Body env))
  /\ XMLName (body_Action (env_Body env'))
     = fold_left
         (fun n b => if isBody b then fold_left nameStep (content b) n else n)
         ch (XMLName (body_Action (env_Body env))).
Proof.
  revert env. induction ch as [|c ch IH]; intros env Hrun; simpl in *.
  - inversion Hrun; subst. split; reflexivity.
  - destruct (envChild env c) as [env1 [e|]] eqn:Hc; [discriminate|].
    apply unmarshalEnvelopeChild_body in Hc. destruct Hc as [Hf Hn].
    rewrite <- Hf, <- Hn. now apply IH.
Qed.

(** A successful [Decode] leaves in the body the fault and the element
    name that the document describes. *)
Lemma Decode_ok (r : R) (env env' : envelope P) (root : node) :
  tokens r = Document root ->
  Decode unmarshalArgs tokens r env = (env', None) ->
  body_Fault (env_Body env) = None ->
  body_Fault (env_Body env') = faultOf root
  /\ XMLName (body_Action (env_Body env'))
     = actionNameOf root (XMLName (body_Action (env_Body env))).
Proof.
  intros Htok Hdec Hnone. unfold Decode in Hdec. rewrite Htok in Hdec.
  unfold faultOf, actionNameOf. rewrite <- Hnone.
  destruct root as [n at_ ch inner|t]; simpl in *.
  - destruct (negb (Local n =? "Envelope")); [discriminate|].
    destruct (negb (Space n =? soapNS)); [discriminate|].
    apply forEach_envelope in Hdec. exact Hdec.
  - inversion Hdec; subst. split; reflexivity.
Qed.

(** *** Faults stay *)

Lemma fold_faultStep_keeps (ch : list node) (f : option Fault) :
  f <> None -> fold_left faultStep ch f <> None.
Proof.
  revert f. induction ch as [|c ch IH]; intros f Hf; simpl; [exact Hf|].
  apply IH. unfold faultStep. destruct (isFault c); [discriminate|exact Hf].
Qed.

Lemma fold_faultStep_finds (ch : list node) (f : option Fault) :
  existsb isFault ch = true -> fold_left faultStep ch f <> None.
Proof.
  revert f. induction ch as [|c ch IH]; intros f Hex; simpl in *.
  - discriminate.
  - destruct (isFault c) eqn:Hc; simpl in Hex.
    + apply fold_faultStep_keeps. unfold faultStep. rewrite Hc. discriminate.
    + now apply IH.
Qed.

Lemma fold_bodyStep_keeps (bs : list node) (f : option Fault) :
  f <> None -> fold_left bodyStep bs f <> None.
Proof.
  revert f. induction bs as [|b bs IH]; intros f Hf; simpl; [exact Hf|].
  apply IH. unfold bodyStep. destruct (isBody b); [|exact Hf].
  now apply fold_faultStep_keeps.
Qed.

Lemma fold_bodyStep_finds (bs : list node) (f : option Fault) :
  existsb (fun b => isBody b && existsb isFault (content b)) bs = true ->
  fold_left bodyStep bs f <> None.
Proof.
  revert f. induction bs as [|b bs IH]; intros f Hex; simpl in *.
  - discriminate.
  - destruct (isBody b && existsb isFault (content b)) eqn:Hb; simpl in Hex.
    + apply andb_prop in Hb. destruct Hb as [Hbody Hfault].
      apply fold_bodyStep_keeps. unfold bodyStep. rewrite Hbody.
      now apply fold_faultStep_finds.
    + now apply IH.
Qed.

Lemma hasFault_faultOf (root : node) :
  hasFault root = true -> faultOf root <> None.
Proof. intro Hex. now apply (fold_bodyStep_finds _ None). Qed.

(** *** The outcomes of Read *)

(** C1: when the stream decodes without error and its document has a
    [Fault] element in a SOAP body, [Read] returns that fault as the error,
    whatever else the body holds and whatever the decoder stored in the
    action. *)
Theorem Read_fault_precedence (r : R) (a : Action P) (root : node) :
  tokens r = Document root ->
  snd (Decode unmarshalArgs tokens r (newEnvelope a)) = None ->
  hasFault root = true ->
  exists f, faultOf root = Some f
            /\ snd (Read unmarshalArgs tokens r a) = Some (ErrFault f).
Proof.
  intros Htok Hdec Hhas. unfold Read.
  destruct (Decode unmarshalArgs tokens r (newEnvelope a)) as [env err] eqn:Hrun.
  simpl in Hdec. subst err.
  destruct (@Decode_ok r (newEnvelope a) env root Htok Hrun eq_refl) as [Hf _].
  apply hasFault_faultOf in Hhas.
  destruct (faultOf root) as [f|]; [|contradiction].
  exists f. rewrite Hf. split; reflexivity.
Qed.

(** C8: when decoding fails with an error, [Read] returns that error, not
    a fault and not success, and leaves the action as the decoder left
    it. *)
Theorem Read_decode_error (r : R) (a : Action P) (e : error) :
  snd (Decode unmarshalArgs tokens r (newEnvelope a)) = Some e ->
  Read unmarshalArgs tokens r a
  = (body_Action (env_Body (fst (Decode unmarshalArgs tokens r (newEnvelope a)))),
     Some e).
Proof.
  intro Hdec. unfold Read.
  destruct (Decode unmarshalArgs tokens r (newEnvelope a)) as [env err].
  simpl in *. subst err. reflexivity.
Qed.

(** A stream that is malformed or fails to be read makes [Decode] fail. *)
Lemma Decode_Broken (r : R) (env : envelope P) (partial : option node)
    (e0 : error) :
  tokens r = Broken partial e0 ->
  snd (Decode unmarshalArgs tokens r env) <> None.
Proof.
  intro Htok. unfold Decode. rewrite Htok.
  destruct partial as [root|]; [|discriminate].
  destruct (unmarshalEnvelope unmarshalArgs env root) as [env' [e|]];
    discriminate.
Qed.

(** C10: after a successful [Read], the [XMLName] of the action is the
    name of the last element of a SOAP body that is not a fault; it is the
    caller's name only when there is no such element. *)
Theorem Read_overwrites_XMLName (r : R) (a : Action P) (root : node) :
  tokens r = Document root ->
  snd (Read unmarshalArgs tokens r a) = None ->
  XMLName (fst (Read unmarshalArgs tokens r a))
  = actionNameOf root (XMLName a).
Proof.
  intros Htok Hok. unfold Read in *.
  destruct (Decode unmarshalArgs tokens r (newEnvelope a)) as [env err] eqn:Hrun.
  destruct err as [e|]; [discriminate|].
  destruct (@Decode_ok r (newEnvelope a) env root Htok Hrun eq_refl) as [_ Hn].
  destruct (body_Fault (env_Body env)); [discriminate|].
  exact Hn.
Qed.

(** C6: the fault of the example decodes field by field, and the detail
    keeps the bytes [<x>1</x>]. *)
Theorem Read_fault_fields (r : R) (a : Action P) (space : string)
    (attrs battrs fattrs : list Attr) (inner binner : string) :
  tokens r = Document (soapEnvelope attrs battrs inner binner
                         [serverFault space fattrs]) ->
  Read unmarshalArgs tokens r a
  = (a, Some (ErrFault (mkFault "Server" "boom" "svc1"
                          (mkFaultDetail "<x>1</x>")))).
Proof.
  intro Htok. unfold Read, Decode. rewrite Htok. reflexivity.
Qed.

End ReadingFacts.


(** ** Read on concrete streams *)

Lemma Read_fault_precedence_witness :
  exists f, faultOf (rootOf fault_and_action_bytes) = Some f
            /\ snd (Read unmarshalSample tokenize fault_and_action_bytes askStatus)
               = Some (ErrFault f).
Proof.
  apply (@Read_fault_precedence Sample unmarshalSample string tokenize
           fault_and_action_bytes askStatus (rootOf fault_and_action_bytes));
    vm_compute; reflexivity.
Defined.

(** The fault wins although the decoder has filled the action from the
    element next to it. *)
Example Read_fault_and_action :
  Read unmarshalSample tokenize fault_and_action_bytes askStatus
  = (mkAction (mkName "urn:example" "GetStatusResponse") (mkSample "on"),
     Some (ErrFault (mkFault "Client" "" "" (mkFaultDetail "")))).
Proof. vm_compute. reflexivity. Qed.

Lemma Read_decode_error_witness :
  Read unmarshalSample tokenize truncated_bytes askStatus
  = (body_Action
       (env_Body (fst (Decode unmarshalSample tokenize truncated_bytes
                         (newEnvelope askStatus)))),
     Some unexpectedEOF).
Proof.
  apply (@Read_decode_error Sample unmarshalSample string tokenize
           truncated_bytes askStatus unexpectedEOF).
  vm_compute. reflexivity.
Defined.

(** The stream had a complete fault before it broke off. *)
Example truncated_has_fault :
  body_Fault (env_Body (fst (Decode unmarshalSample tokenize truncated_bytes
                               (newEnvelope askStatus))))
  = Some (mkFault "Client" "" "" (mkFaultDetail "")).
Proof. vm_compute. reflexivity. Qed.

Lemma Read_overwrites_XMLName_witness :
  XMLName (fst (Read unmarshalSample tokenize renamed_bytes askStatus))
  = actionNameOf (rootOf renamed_bytes) (XMLName askStatus).
Proof.
  apply (@Read_overwrites_XMLName Sample unmarshalSample string tokenize
           renamed_bytes askStatus (rootOf renamed_bytes));
    vm_compute; reflexivity.
Defined.

Example renamed_name :
  actionNameOf (rootOf renamed_bytes) (XMLName askStatus)
  = mkName "urn:elsewhere" "Other".
Proof. vm_compute. reflexivity. Qed.

Lemma Read_fault_fields_witness :
  Read unmarshalSample tokenize serverFault_bytes askStatus
  = (askStatus,
     Some (ErrFault (mkFault "Server" "boom" "svc1" (mkFaultDetail "<x>1</x>")))).
Proof.
  eapply (@Read_fault_fields Sample unmarshalSample string tokenize
            serverFault_bytes askStatus).
  reflexivity.
Defined.

(** ** Writing, then reading *)

(** C4, as stated, fails: an action whose local name is [Fault] is written
    without error, but reading the bytes back takes the wrapper element for
    a fault; [Read] returns a fault and the payload target is not filled.
    It fails as well for a local name that is not an XML name: with a
    space in it, the bytes that [Write] produces are not well-formed and
    [Read] returns a syntax error. *)
Lemma roundtrip_fails_for_Fault :
  (snd (Write encodeSample "" faultNamed) = None
   /\ ~ (snd (Read unmarshalSample tokenize (fst (Write encodeSample "" faultNamed))
                (mkAction (XMLName faultNamed) (mkSample ""))) = None
         /\ Args (fst (Read unmarshalSample tokenize
                         (fst (Write encodeSample "" faultNamed))
                         (mkAction (XMLName faultNamed) (mkSample ""))))
            = Args faultNamed))
  /\ (snd (Write encodeSample "" spaceNamed) = None
      /\ ~ (snd (Read unmarshalSample tokenize
                   (fst (Write encodeSample "" spaceNamed))
                   (mkAction (XMLName spaceNamed) (mkSample ""))) = None
            /\ Args (fst (Read unmarshalSample tokenize
                            (fst (Write encodeSample "" spaceNamed))
                            (mkAction (XMLName spaceNamed) (mkSample ""))))
               = Args spaceNamed)).
Proof.
  split; (split; [reflexivity|]); intros [Hok _]; vm_compute in Hok;
    discriminate Hok.
Qed.

Example roundtrip_Fault_outcome :
  Read unmarshalSample tokenize (fst (Write encodeSample "" faultNamed))
    (mkAction (XMLName faultNamed) (mkSample ""))
  = (mkAction (XMLName faultNamed) (mkSample ""), Some (ErrFault zeroFault)).
Proof. vm_compute. reflexivity. Qed.

(** ** Namespace declarations of the written envelope *)










(** A local name with a space can smuggle an attribute into the wrapper
    tag. *)
Example Write_name_with_space :
  declaresDefaultNS
    (fst (Write noArgs "" (mkAction (mkName "urn:example" "a xmlns=b") tt)))
  = true.
Proof. vm_compute. reflexivity. Qed.



(** * Further properties *)

(** ** Write on an arbitrary stream *)

Section WriteStages.
Context {W : Type} `{Writer W}.
Variable P : Type.
Variable enc : P -> list string * option error.

Lemma writeAll_app (l1 l2 : list string) (w : W) :
  writeAll (l1 ++ l2) w
  = match writeAll l1 w with
    | (w', Some e) => (w', Some e)
    | (w', None) => writeAll l2 w'
    end.
Proof.
  revert w. induction l1 as [|p l1 IH]; intro w; simpl; [reflexivity|].
  destruct (write p w) as [w' [e|]]; [reflexivity|]. apply IH.
Qed.

(** [Write] as three parts: the calls of [opening]; the marshalling error;
    the closing tag and the end of the envelope. *)
Lemma Write_unfold (w : W) (a : Action P) :
  Write enc w a
  = match writeAll (opening (XMLName a) (fst (enc (Args a)))) w with
    | (w1, Some e) => (w1, Some e)
    | (w1, None) =>
        match snd (enc (Args a)) with
        | Some e => (w1, Some e)
        | None =>
            match write env4 w1 with
            | (w2, Some e) => (w2, Some e)
            | (w2, None) =>
                writeAll [env5; envClose]
                  (fst (EscapeText (Local (XMLName a)) w2))
            end
        end
    end.
Proof.
  unfold Write, opening, EscapeText, Encode, Flush. cbn [app writeAll].
  destruct (write envOpen w) as [w1 [e|]]; [reflexivity|].
  destruct (write env1 w1) as [w2 [e|]]; [reflexivity|].
  rewrite writeAll_app.
  destruct (writeAll (escapeWrites "" (Local (XMLName a))) w2) as [w3 [e|]];
    [reflexivity|].
  cbn [app writeAll].
  destruct (write env2 w3) as [w4 [e|]]; [reflexivity|].
  rewrite writeAll_app.
  destruct (writeAll (escapeWrites "" (Space (XMLName a))) w4) as [w5 [e|]];
    [reflexivity|].
  cbn [app writeAll].
  destruct (write env3 w5) as [w6 [e|]]; [reflexivity|].
  destruct (writeAll (fst (enc (Args a))) w6) as [w7 [e|]]; [reflexivity|].
  destruct (snd (enc (Args a))) as [e|]; [reflexivity|].
  destruct (write env4 w7) as [w8 [e|]]; [reflexivity|].
  destruct (writeAll (escapeWrites "" (Local (XMLName a))) w8) as [w9 r].
  cbn [fst].
  destruct (write env5 w9) as [w10 [e|]]; [reflexivity|].
  destruct (write envClose w10) as [w11 [e|]]; reflexivity.
Qed.

(** X1: on any stream, when a call fails while [Write] emits [envOpen]
    or the wrapper's open tag, or, for a payload that marshals without
    error, while the encoder emits the payload, [Write] returns the error
    of that call and leaves the stream as that call left it: no later call
    is made. *)
Theorem Write_returns_first_stream_error (w w' : W) (a : Action P) (e : error) :
  writeAll (opening (XMLName a) (fst (enc (Args a)))) w = (w', Some e) ->
  snd (enc (Args a)) = None
  \/ snd (writeAll (openTag (XMLName a)) w) <> None ->
  Write enc w a = (w', Some e).
Proof. intros Hfail _. now rewrite Write_unfold, Hfail. Qed.

(** X2: on any stream that accepts the open tags and the bytes of the
    payload, a marshalling error of the encoder is returned by [Write], and
    nothing is written after the payload: the closing tags are missing. *)
Theorem Write_returns_marshal_error (w w' : W) (a : Action P) (e : error) :
  writeAll (opening (XMLName a) (fst (enc (Args a)))) w = (w', None) ->
  snd (enc (Args a)) = Some e ->
  Write enc w a = (w', Some e).
Proof. intros Hok Henc. now rewrite Write_unfold, Hok, Henc. Qed.

(** X3: on any stream, once the payload is written, the outcome of
    [Write] is that of the write of [env4] if it fails, and else that of
    the writes of [env5] and [envClose] on the stream as the escaper of the
    closing name left it; the error of that escaper has no part in it. *)
Theorem Write_closing_stage (w w1 : W) (a : Action P) :
  writeAll (opening (XMLName a) (fst (enc (Args a)))) w = (w1, None) ->
  snd (enc (Args a)) = None ->
  Write enc w a
  = match write env4 w1 with
    | (w2, Some e) => (w2, Some e)
    | (w2, None) =>
        writeAll [env5; envClose] (fst (EscapeText (Local (XMLName a)) w2))
    end.
Proof. intros Hok Henc. now rewrite Write_unfold, Hok, Henc. Qed.

End WriteStages.

Lemma Write_returns_first_stream_error_witness :
  Write noArgs (probe fourth_call_fails) getStatus
  = (fst (writeAll (opening (XMLName getStatus) []) (probe fourth_call_fails)),
     Some (ErrStream "broken pipe")).
Proof.
  apply (@Write_returns_first_stream_error Probe ProbeWriter unit noArgs).
  - vm_compute. reflexivity.
  - left. reflexivity.
Defined.

Lemma Write_returns_marshal_error_witness :
  Write encodeUnsupported (probe []) getStatus
  = (fst (writeAll (opening (XMLName getStatus) []) (probe [])),
     Some (ErrXML "xml: unsupported type: struct {}")).
Proof.
  apply (@Write_returns_marshal_error Probe ProbeWriter unit encodeUnsupported);
    vm_compute; reflexivity.
Defined.

Lemma Write_closing_stage_witness :
  Write noArgs (probe closing_name_failure) getStatus
  = match write env4 (fst (writeAll (opening (XMLName getStatus) [])
                             (probe closing_name_failure))) with
    | (w2, Some e) => (w2, Some e)
    | (w2, None) =>
        writeAll [env5; envClose] (fst (EscapeText (Local (XMLName getStatus)) w2))
    end.
Proof.
  apply (@Write_closing_stage Probe ProbeWriter unit noArgs);
    vm_compute; reflexivity.
Defined.

(** ** Write on a buffer *)

(** X4: on a buffer [Write] fails only when marshalling fails and then
    returns the marshalling error; it appends to the buffer the envelope
    around the payload bytes, complete when marshalling succeeded and cut
    off after the payload bytes when it failed.  The names are not
    checked. *)
Theorem Write_appends_envelope (P : Type)
    (enc : P -> list string * option error) (a : Action P) (buf : string) :
  Write enc buf a
  = (buf ++ envOpen ++ env1 ++ escaped (Local (XMLName a)) ++ env2
       ++ escaped (Space (XMLName a)) ++ env3 ++ joined (fst (enc (Args a)))
       ++ match snd (enc (Args a)) with
          | Some _ => ""
          | None => env4 ++ escaped (Local (XMLName a)) ++ env5 ++ envClose
          end,
     snd (enc (Args a))).
Proof.
  rewrite Write_unfold. unfold opening.
  rewrite writeAll_Buffer.
  replace (joined ([envOpen; env1] ++ escapeWrites "" (Local (XMLName a))
                   ++ [env2] ++ escapeWrites "" (Space (XMLName a))
                   ++ [env3] ++ fst (enc (Args a))))
    with (envOpen ++ env1 ++ escaped (Local (XMLName a)) ++ env2
          ++ escaped (Space (XMLName a)) ++ env3 ++ joined (fst (enc (Args a)))).
  - destruct (snd (enc (Args a))) as [e|].
    + now rewrite ?append_assoc, ?append_nil_r.
    + cbn [write Buffer]. rewrite EscapeText_Buffer, writeAll_Buffer.
      cbn [fst joined fold_right]. now rewrite ?append_assoc, ?append_nil_r.
  - unfold escaped.
    assert (Hcons : forall x l, joined (x :: l) = x ++ joined l)
      by reflexivity.
    cbn [app]. now rewrite ?Hcons, ?joined_app, ?Hcons, ?joined_app, ?Hcons.
Qed.

(** ** The error message of a fault *)

(** X5: the message of a fault does not tell the code from the string:
    a colon and a space inside the code read as the separator.  The actor
    and the detail are not part of the message. *)
Theorem Error_ambiguous (c s t actor1 actor2 : string) (d1 d2 : FaultDetail) :
  Error (mkFault (c ++ ": " ++ s) t actor1 d1)
  = Error (mkFault c (s ++ ": " ++ t) actor2 d2).
Proof. unfold Error. cbn [Code String_]. now rewrite !append_assoc. Qed.

(** ** Read: what it takes from the document *)

Section ReadDocument.
Variable P : Type.
Variable unmarshalArgs : node -> P -> P * option error.
Variable R : Type.
Variable tokens : R -> parsed.

Local Abbreviation actChild := (unmarshalActionChild unmarshalArgs).
Local Abbreviation bodyChild := (unmarshalBodyChild unmarshalArgs).
Local Abbreviation envChild := (unmarshalEnvelopeChild unmarshalArgs).

Lemma forEach_app (S : Type) (f : S -> node -> S * option error)
    (l1 l2 : list node) (s : S) :
  forEach f (l1 ++ l2) s
  = match forEach f l1 s with
    | (s', Some e) => (s', Some e)
    | (s', None) => forEach f l2 s'
    end.
Proof.
  revert s. induction l1 as [|c l1 IH]; intro s; simpl; [reflexivity|].
  destruct (f s c) as [s' [e|]]; [reflexivity|]. apply IH.
Qed.

(** *** Bodies without payload *)

Lemma forEach_body_faults (ch : list node) (b : body P) :
  forallb (fun c => isText c || isFault c) ch = true ->
  forEach bodyChild ch b
  = (mkBody (fold_left faultStep ch (body_Fault b)) (body_Action b), None).
Proof.
  revert b. induction ch as [|c ch IH]; intros b Hall; simpl in *.
  - destruct b; reflexivity.
  - apply andb_prop in Hall. destruct Hall as [Hc Hch].
    destruct c as [n at_ cc inner|t]; simpl in *.
    + unfold faultStep at 2. simpl. rewrite Hc.
      rewrite (IH _ Hch). reflexivity.
    + rewrite (IH _ Hch). reflexivity.
Qed.

Lemma forEach_envelope_faults (ch : list node) (env : envelope P) :
  forallb (fun b => negb (isBody b)
                    || forallb (fun c => isText c || isFault c) (content b))
    ch = true ->
  forEach envChild ch env
  = (mkEnvelope (env_XMLName env) (env_EncodingStyle env)
       (mkBody (fold_left bodyStep ch (body_Fault (env_Body env)))
          (body_Action (env_Body env))), None).
Proof.
  revert env. induction ch as [|c ch IH]; intros env Hall; simpl in *.
  - destruct env as [n st [f a]]; reflexivity.
  - apply andb_prop in Hall. destruct Hall as [Hc Hch].
    destruct c as [n at_ cc inner|t]; simpl in *.
    + unfold bodyStep at 2. simpl.
      destruct ((Local n =? "Body") && (Space n =? soapNS)); simpl in Hc.
      * rewrite (forEach_body_faults _ _ Hc), (IH _ Hch). reflexivity.
      * rewrite (IH _ Hch). destruct env as [m st [f a]]; reflexivity.
    + rewrite (IH _ Hch). destruct env as [m st [f a]]; reflexivity.
Qed.

Lemma Read_onlyFaults (r : R) (a : Action P) (root : node) :
  tokens r = Document root ->
  isEnvelope root = true ->
  onlyFaults root = true ->
  Read unmarshalArgs tokens r a
  = (a, match faultOf root with Some f => Some (ErrFault f) | None => None end).
Proof.
  intros Htok Henv Hall. unfold Read, Decode. rewrite Htok.
  destruct root as [n at_ ch inner|t]; [|discriminate].
  simpl in Henv. apply andb_prop in Henv. destruct Henv as [Hl Hs].
  unfold unmarshalEnvelope. rewrite Hl, Hs. cbn [negb].
  unfold onlyFaults in Hall. cbn [content] in Hall.
  rewrite (forEach_envelope_faults _ _ Hall).
  unfold faultOf, bodyStep. cbn.
  destruct (fold_left _ ch None); reflexivity.
Qed.

Lemma noBodyElement_onlyFaults (root : node) :
  noBodyElement root = true -> onlyFaults root = true.
Proof.
  unfold noBodyElement, onlyFaults.
  induction (content root) as [|b bs IH]; simpl; [reflexivity|].
  intro H. apply andb_prop in H. destruct H as [Hb Hbs].
  rewrite (IH Hbs), andb_true_r.
  destruct (isBody b); simpl in *; [|reflexivity].
  clear -Hb. induction (content b) as [|c cs IHc]; simpl in *; [reflexivity|].
  apply andb_prop in Hb. destruct Hb as [Hc Hcs].
  now rewrite Hc, (IHc Hcs).
Qed.

Lemma fold_faultStep_text (cs : list node) (f : option Fault) :
  forallb isText cs = true -> fold_left faultStep cs f = f.
Proof.
  induction cs as [|c cs IH]; simpl; [reflexivity|].
  intro H. apply andb_prop in H. destruct H as [Hc Hcs].
  destruct c; [discriminate|]. now apply IH.
Qed.

Lemma fold_bodyStep_text (bs : list node) (f : option Fault) :
  forallb (fun b => negb (isBody b) || forallb isText (content b)) bs = true ->
  fold_left bodyStep bs f = f.
Proof.
  induction bs as [|b bs IH]; simpl; [reflexivity|].
  intro H. apply andb_prop in H. destruct H as [Hb Hbs].
  unfold bodyStep at 2. destruct (isBody b); simpl in Hb.
  - rewrite (fold_faultStep_text _ _ Hb). now apply IH.
  - now apply IH.
Qed.

Lemma noBodyElement_faultOf (root : node) :
  noBodyElement root = true -> faultOf root = None.
Proof. intro H. exact (fold_bodyStep_text _ None H). Qed.

(** X6: a document whose root is not an [Envelope] in the SOAP envelope
    namespace is refused with an XML error, whatever it contains, and the
    action is left as it was. *)
Theorem Read_rejects_other_root (r : R) (a : Action P) (root : node) :
  tokens r = Document root ->
  isText root = false ->
  isEnvelope root = false ->
  exists msg, Read unmarshalArgs tokens r a = (a, Some (ErrXML msg)).
Proof.
  intros Htok Helem Henv. unfold Read, Decode. rewrite Htok.
  destruct root as [n at_ ch inner|t]; [|discriminate]. simpl in *.
  destruct (Local n =? "Envelope"); simpl in *.
  - rewrite Henv. simpl. eexists; reflexivity.
  - eexists; reflexivity.
Qed.

(** X7: for a SOAP envelope in which no body holds an element (no body,
    a body in another namespace, an empty body), [Read] reports success
    and leaves the action as it was. *)
Theorem Read_without_body_element (r : R) (a : Action P) (root : node) :
  tokens r = Document root ->
  isEnvelope root = true ->
  noBodyElement root = true ->
  Read unmarshalArgs tokens r a = (a, None).
Proof.
  intros Htok Henv Hno.
  rewrite (@Read_onlyFaults r a root Htok Henv
             (@noBodyElement_onlyFaults root Hno)).
  now rewrite (@noBodyElement_faultOf root Hno).
Qed.

(** X8: for a SOAP envelope whose bodies hold no element but faults,
    [Read] leaves the action as it was: its name and arguments are not
    touched; the outcome is the fault of the document, or success when
    there is none. *)
Theorem Read_fault_only (r : R) (a : Action P) (root : node) :
  tokens r = Document root ->
  isEnvelope root = true ->
  onlyFaults root = true ->
  Read unmarshalArgs tokens r a
  = (a, match faultOf root with Some f => Some (ErrFault f) | None => None end).
Proof. intros Htok Henv Hall. now apply Read_onlyFaults. Qed.

(** X9: a stream that ends, or fails, before its first element makes
    [Read] return the error of the tokenizer and leave the action as it
    was. *)
Theorem Read_no_element (r : R) (a : Action P) (e : error) :
  tokens r = Broken None e ->
  Read unmarshalArgs tokens r a = (a, Some e).
Proof. intro Htok. unfold Read, Decode. now rewrite Htok. Qed.

(** *** The envelope's own fields *)

Lemma forEach_envelope_frame (ch : list node) (n : Name) (st : string)
    (b : body P) :
  forEach envChild ch (mkEnvelope n st b)
  = (mkEnvelope n st
       (env_Body (fst (forEach envChild ch (mkEnvelope (mkName "" "") "" b)))),
     snd (forEach envChild ch (mkEnvelope (mkName "" "") "" b))).
Proof.
  revert b. induction ch as [|c ch IH]; intro b; simpl; [reflexivity|].
  destruct c as [m at_ cc inner|t]; simpl.
  - destruct ((Local m =? "Body") && (Space m =? soapNS)).
    + destruct (forEach bodyChild cc b) as [b' [e|]]; simpl; [reflexivity|].
      apply IH.
    + apply IH.
  - apply IH.
Qed.

(** X10: [Read] takes nothing from the attributes of the envelope: two
    documents whose roots have the same name and the same content give the
    same outcome and the same action, whatever their attributes, the
    encoding style among them. *)
Theorem Read_ignores_envelope_attributes (r1 r2 : R) (a : Action P)
    (n : Name) (attrs1 attrs2 : list Attr) (ch : list node)
    (inner1 inner2 : string) :
  tokens r1 = Document (Element n attrs1 ch inner1) ->
  tokens r2 = Document (Element n attrs2 ch inner2) ->
  Read unmarshalArgs tokens r1 a = Read unmarshalArgs tokens r2 a.
Proof.
  intros H1 H2. unfold Read, Decode. rewrite H1, H2.
  unfold unmarshalEnvelope, newEnvelope.
  destruct (negb (Local n =? "Envelope")); [reflexivity|].
  destruct (negb (Space n =? soapNS)); [reflexivity|].
  cbn [env_Body env_EncodingStyle].
  rewrite (forEach_envelope_frame ch n (fold_left unmarshalEnvelopeAttr attrs1 "")).
  rewrite (forEach_envelope_frame ch n (fold_left unmarshalEnvelopeAttr attrs2 "")).
  reflexivity.
Qed.

(** *** The payload *)

Lemma forEach_body_payload (ch : list node) (b b' : body P) :
  forEach bodyChild ch b = (b', None) ->
  forEach actChild (flat_map payloadOf ch) (Args (body_Action b))
  = (Args (body_Action b'), None).
Proof.
  revert b. induction ch as [|c ch IH]; intros b Hrun; simpl in *.
  - inversion Hrun; subst. reflexivity.
  - destruct (bodyChild b c) as [b1 [e|]] eqn:Hc; [discriminate|].
    rewrite forEach_app.
    assert (Hstep : forEach actChild (payloadOf c) (Args (body_Action b))
                    = (Args (body_Action b1), None)).
    { destruct c as [n at_ cc inner|t]; unfold payloadOf; simpl in *.
      - destruct (Local n =? "Fault").
        + inversion Hc; subst. reflexivity.
        + destruct (forEach actChild cc (Args (body_Action b))) as [args err].
          inversion Hc; subst. reflexivity.
      - inversion Hc; subst. reflexivity. }
    rewrite Hstep. now apply IH.
Qed.

Lemma forEach_envelope_payload (ch : list node) (env env' : envelope P) :
  forEach envChild ch env = (env', None) ->
  forEach actChild
    (flat_map (fun b => if isBody b then flat_map payloadOf (content b) else [])
       ch)
    (Args (body_Action (env_Body env)))
  = (Args (body_Action (env_Body env')), None).
Proof.
  revert env. induction ch as [|c ch IH]; intros env Hrun; simpl in *.
  - inversion Hrun; subst. reflexivity.
  - destruct (envChild env c) as [env1 [e|]] eqn:Hc; [discriminate|].
    rewrite forEach_app.
    assert (Hstep : forEach actChild
                      (if isBody c then flat_map payloadOf (content c) else [])
                      (Args (body_Action (env_Body env)))
                    = (Args (body_Action (env_Body env1)), None)).
    { destruct c as [n at_ cc inner|t]; simpl in *.
      - destruct ((Local n =? "Body") && (Space n =? soapNS)).
        + destruct (forEach bodyChild cc (env_Body env)) as [b err] eqn:Hb.
          inversion Hc; subst. simpl. now apply forEach_body_payload.
        + inversion Hc; subst. reflexivity.
      - inversion Hc; subst. reflexivity. }
    rewrite Hstep. now apply IH.
Qed.

(** X11: when the stream decodes without error, the arguments of the
    action after [Read] are what the payload decoder makes, starting from
    the caller's arguments, of the content of every element of a SOAP body
    that is not a fault, taken in document order; none of these decoding
    steps has failed. *)
Theorem Read_feeds_payload_in_order (r : R) (a : Action P) (root : node) :
  tokens r = Document root ->
  snd (Decode unmarshalArgs tokens r (newEnvelope a)) = None ->
  forEach actChild (payloadElements root) (Args a)
  = (Args (fst (Read unmarshalArgs tokens r a)), None).
Proof.
  intros Htok Hdec. unfold Read.
  destruct (Decode unmarshalArgs tokens r (newEnvelope a)) as [env err] eqn:Hrun.
  simpl in Hdec. subst err.
  assert (Hfst : Args (fst (match body_Fault (env_Body env) with
                            | Some f => (body_Action (env_Body env), Some (ErrFault f))
                            | None => (body_Action (env_Body env), None)
                            end))
                 = Args (body_Action (env_Body env)))
    by (destruct (body_Fault (env_Body env)); reflexivity).
  rewrite Hfst. clear Hfst.
  unfold Decode in Hrun. rewrite Htok in Hrun. unfold payloadElements.
  destruct root as [n at_ ch inner|t]; simpl in *.
  - destruct (negb (Local n =? "Envelope")); [discriminate|].
    destruct (negb (Space n =? soapNS)); [discriminate|].
    apply forEach_envelope_payload in Hrun. exact Hrun.
  - inversion Hrun; subst. reflexivity.
Qed.

(** *** The elements of the bodies decide *)

Lemma forEach_body_elements (ch : list node) (b : body P) :
  forEach bodyChild ch b = forEach bodyChild (filter isElement ch) b.
Proof.
  revert b. induction ch as [|c ch IH]; intro b; [reflexivity|].
  destruct c as [n at_ cc inner|t].
  - cbn [filter isElement isText negb forEach].
    destruct (bodyChild b (Element n at_ cc inner)) as [b' [e|]];
      [reflexivity|apply IH].
  - cbn [filter isElement isText negb forEach unmarshalBodyChild]. apply IH.
Qed.

Lemma forEach_envelope_bodies (chs : list node) (env : envelope P) :
  forEach envChild chs env
  = (mkEnvelope (env_XMLName env) (env_EncodingStyle env)
       (fst (forEach bodyChild
               (flat_map (fun b => if isBody b then filter isElement (content b)
                                   else []) chs)
               (env_Body env))),
     snd (forEach bodyChild
            (flat_map (fun b => if isBody b then filter isElement (content b)
                                else []) chs)
            (env_Body env))).
Proof.
  revert env. induction chs as [|c chs IH]; intro env.
  - destruct env as [n st b]; reflexivity.
  - cbn [flat_map forEach]. rewrite forEach_app.
    destruct c as [n at_ cc inner|t].
    + cbn [unmarshalEnvelopeChild isBody content].
      destruct ((Local n =? "Body") && (Space n =? soapNS)).
      * rewrite <- forEach_body_elements.
        destruct (forEach bodyChild cc (env_Body env)) as [b' [e|]];
          [reflexivity|].
        rewrite IH. reflexivity.
      * cbn [forEach]. apply IH.
    + cbn [unmarshalEnvelopeChild isBody forEach]. apply IH.
Qed.

(** [Read] on an envelope whose bodies hold one element, not a fault. *)
Lemma Read_one_element (r : R) (a : Action P) (root : node) (q : Name)
    (cattrs : list Attr) (ch : list node) (cinner : string) :
  tokens r = Document root ->
  isEnvelope root = true ->
  bodyElements root = [Element q cattrs ch cinner] ->
  Local q <> "Fault" ->
  Read unmarshalArgs tokens r a
  = (mkAction q (fst (forEach actChild ch (Args a))),
     snd (forEach actChild ch (Args a))).
Proof.
  intros Htok Henv Hone Hq. apply String.eqb_neq in Hq.
  unfold Read, Decode. rewrite Htok.
  destruct root as [n at_ chs inner|t]; [|discriminate].
  simpl in Henv. apply andb_prop in Henv. destruct Henv as [Hl Hs].
  unfold unmarshalEnvelope. rewrite Hl, Hs. cbn [negb].
  rewrite forEach_envelope_bodies.
  unfold bodyElements in Hone. cbn [content] in Hone.
  cbn [env_Body newEnvelope]. rewrite Hone.
  cbn [forEach unmarshalBodyChild]. rewrite Hq.
  cbn [unmarshalAction body_Action body_Fault].
  destruct (forEach actChild ch (Args a)) as [args [e|]]; reflexivity.
Qed.

(** C9, amended: for a SOAP envelope whose bodies hold a single element,
    with any amount of text around it and any other children of the
    envelope, of any name [q] whose local name is not [Fault], and whose
    content the payload decoder accepts, [Read] succeeds whatever name the
    action carried, and the payload is what the decoder makes of the
    content of that element. *)
Theorem Read_positional (r : R) (a : Action P) (root : node) (q : Name)
    (cattrs : list Attr) (ch : list node) (cinner : string) (args : P) :
  tokens r = Document root ->
  isEnvelope root = true ->
  bodyElements root = [Element q cattrs ch cinner] ->
  Local q <> "Fault" ->
  forEach (unmarshalActionChild unmarshalArgs) ch (Args a) = (args, None) ->
  Read unmarshalArgs tokens r a = (mkAction q args, None).
Proof.
  intros Htok Henv Hone Hq Hargs.
  rewrite (@Read_one_element r a root q cattrs ch cinner Htok Henv Hone Hq).
  now rewrite Hargs.
Qed.

End ReadDocument.

Lemma Read_rejects_other_root_witness :
  exists msg,
    Read unmarshalSample tokenize not_soap_bytes askStatus
    = (askStatus, Some (ErrXML msg)).
Proof.
  apply (@Read_rejects_other_root Sample unmarshalSample string tokenize
           not_soap_bytes askStatus (rootOf not_soap_bytes));
    vm_compute; reflexivity.
Defined.

Lemma Read_without_body_element_witness :
  Read unmarshalSample tokenize empty_body_bytes askStatus = (askStatus, None).
Proof.
  apply (@Read_without_body_element Sample unmarshalSample string tokenize
           empty_body_bytes askStatus (rootOf empty_body_bytes));
    vm_compute; reflexivity.
Defined.

Lemma Read_fault_only_witness :
  Read unmarshalSample tokenize serverFault_bytes askStatus
  = (askStatus,
     match faultOf (rootOf serverFault_bytes) with
     | Some f => Some (ErrFault f)
     | None => None
     end).
Proof.
  apply (@Read_fault_only Sample unmarshalSample string tokenize
           serverFault_bytes askStatus (rootOf serverFault_bytes));
    vm_compute; reflexivity.
Defined.

Lemma Read_no_element_witness :
  Read unmarshalSample tokenize "" askStatus
  = (askStatus, Some (ErrStream "EOF")).
Proof.
  apply (@Read_no_element Sample unmarshalSample string tokenize "" askStatus).
  vm_compute. reflexivity.
Defined.

Lemma Read_ignores_envelope_attributes_witness :
  Read unmarshalSample tokenize renamed_bytes askStatus
  = Read unmarshalSample tokenize renamed_styled_bytes askStatus.
Proof.
  eapply (@Read_ignores_envelope_attributes Sample unmarshalSample string
            tokenize renamed_bytes renamed_styled_bytes askStatus).
  - reflexivity.
  - reflexivity.
Defined.

Lemma Read_feeds_payload_in_order_witness :
  forEach (unmarshalActionChild unmarshalSample)
    (payloadElements (rootOf fault_and_action_bytes)) (Args askStatus)
  = (Args (fst (Read unmarshalSample tokenize fault_and_action_bytes askStatus)),
     None).
Proof.
  apply (@Read_feeds_payload_in_order Sample unmarshalSample string tokenize
           fault_and_action_bytes askStatus (rootOf fault_and_action_bytes));
    vm_compute; reflexivity.
Defined.

(** ** The fields of a fault *)

Lemma lastChild_cons (l : string) (c : node) (ch : list node) :
  lastChild l (c :: ch)
  = match lastChild l ch with
    | Some d => Some d
    | None => lastChild l [c]
    end.
Proof. simpl. destruct (lastChild l ch); reflexivity. Qed.

(** One child changes the field that its local name selects, and no
    other. *)
Lemma unmarshalFaultChild_fields (f : Fault) (c : node) :
  Code (unmarshalFaultChild f c)
  = match lastChild "faultcode" [c] with
    | Some d => text_of (content d)
    | None => Code f
    end
  /\ String_ (unmarshalFaultChild f c)
     = match lastChild "faultstring" [c] with
       | Some d => text_of (content d)
       | None => String_ f
       end
  /\ Actor (unmarshalFaultChild f c)
     = match lastChild "faultactor" [c] with
       | Some d => text_of (content d)
       | None => Actor f
       end
  /\ Raw (Detail (unmarshalFaultChild f c))
     = match lastChild "detail" [c] with
       | Some d => innerxmlOf d
       | None => Raw (Detail f)
       end.
Proof.
  destruct c as [[sp l] at_ ch inner|t]; [|repeat split; reflexivity].
  cbn [unmarshalFaultChild lastChild Local].
  destruct (String.eqb_spec l "faultcode") as [->|H1];
    [repeat split; reflexivity|].
  destruct (String.eqb_spec l "faultstring") as [->|H2];
    [repeat split; reflexivity|].
  destruct (String.eqb_spec l "faultactor") as [->|H3];
    [repeat split; reflexivity|].
  destruct (String.eqb_spec l "detail") as [->|H4];
    repeat split; reflexivity.
Qed.

(** X12: each field of a decoded fault comes from the last child of the
    [Fault] element with the field's local name ([faultcode],
    [faultstring], [faultactor], [detail]), in any namespace: the three
    strings are the character data directly inside that child, the detail
    is the raw inner XML of that child; a field without such a child keeps
    its value, and children of other names change nothing. *)
Theorem unmarshalFault_last_child (f : Fault) (children : list node) :
  Code (unmarshalFault f children)
  = match lastChild "faultcode" children with
    | Some d => text_of (content d)
    | None => Code f
    end
  /\ String_ (unmarshalFault f children)
     = match lastChild "faultstring" children with
       | Some d => text_of (content d)
       | None => String_ f
       end
  /\ Actor (unmarshalFault f children)
     = match lastChild "faultactor" children with
       | Some d => text_of (content d)
       | None => Actor f
       end
  /\ Raw (Detail (unmarshalFault f children))
     = match lastChild "detail" children with
       | Some d => innerxmlOf d
       | None => Raw (Detail f)
       end.
Proof.
  revert f. induction children as [|c ch IH]; intro f.
  - repeat split; reflexivity.
  - unfold unmarshalFault in *. cbn [fold_left].
    destruct (IH (unmarshalFaultChild f c)) as (Hc & Hs & Ha & Hd).
    destruct (unmarshalFaultChild_fields f c) as (Fc & Fs & Fa & Fd).
    rewrite Hc, Hs, Ha, Hd.
    rewrite (lastChild_cons "faultcode" c ch), (lastChild_cons "faultstring" c ch),
      (lastChild_cons "faultactor" c ch), (lastChild_cons "detail" c ch).
    repeat split.
    + destruct (lastChild "faultcode" ch); [reflexivity|exact Fc].
    + destruct (lastChild "faultstring" ch); [reflexivity|exact Fs].
    + destruct (lastChild "faultactor" ch); [reflexivity|exact Fa].
    + destruct (lastChild "detail" ch); [reflexivity|exact Fd].
Qed.

(** C9, as stated, fails: the body of this response holds one element,
    named [Fault] in the namespace of the service and not in that of SOAP;
    [Read] takes it for a fault, returns it as the error and leaves the
    payload as it was. *)
Lemma Read_takes_any_Fault_for_fault :
  ~ (snd (Read unmarshalSample tokenize fault_named_bytes askStatus) = None)
  /\ Read unmarshalSample tokenize fault_named_bytes askStatus
     = (askStatus, Some (ErrFault zeroFault)).
Proof. split; [vm_compute; discriminate|vm_compute; reflexivity]. Qed.

Lemma Read_positional_witness :
  Read unmarshalSample tokenize spaced_bytes askStatus
  = (mkAction (mkName "urn:elsewhere" "Other") (mkSample "on"), None).
Proof.
  eapply (@Read_positional Sample unmarshalSample string tokenize
            spaced_bytes askStatus (rootOf spaced_bytes)).
  - vm_compute. reflexivity.
  - vm_compute. reflexivity.
  - vm_compute. reflexivity.
  - discriminate.
  - vm_compute. reflexivity.
Defined.

(** ** The written envelope read back *)

Lemma length_append (s t : string) :
  String.length (s ++ t) = String.length s + String.length t.
Proof. induction s as [|c s IH]; simpl; [reflexivity|now rewrite IH]. Qed.

Lemma span_app_stop (p : ascii -> bool) (a : string) (c : ascii)
    (rest : string) :
  allChars p a = true -> p c = false ->
  span p (a ++ String c rest) = (a, String c rest).
Proof.
  intros Ha Hc. induction a as [|d a IH]; simpl.
  - now rewrite Hc.
  - simpl in Ha. apply andb_prop in Ha. destruct Ha as [Hd Ha].
    now rewrite Hd, (IH Ha).
Qed.

Lemma span_all (p : ascii -> bool) (a : string) :
  allChars p a = true -> span p a = (a, "").
Proof.
  intro Ha. induction a as [|d a IH]; simpl; [reflexivity|].
  simpl in Ha. apply andb_prop in Ha. destruct Ha as [Hd Ha].
  now rewrite Hd, (IH Ha).
Qed.

Lemma allChars_impl (p q : ascii -> bool) (s : string) :
  (forall c, p c = true -> q c = true) ->
  allChars p s = true -> allChars q s = true.
Proof.
  intros Hpq. induction s as [|c s IH]; simpl; [reflexivity|].
  intro H. apply andb_prop in H. destruct H as [Hc Hs].
  now rewrite (Hpq c Hc), (IH Hs).
Qed.

(** A name of name bytes is written as it is. *)
Lemma nameChar_plain (c : ascii) :
  nameChar c = true ->
  isASCII c = true /\ escByte c = String c ""
  /\ negb (isNameEnd c) = true /\ negb (isGt c) = true
  /\ negb (isSpace c) = true.
Proof.
  destruct c as [[] [] [] [] [] [] [] []]; vm_compute; intro H;
    try discriminate H; repeat split.
Qed.

Lemma escaped_nameChars (s : string) :
  allChars nameChar s = true -> escaped s = s.
Proof.
  induction s as [|c s IH]; [reflexivity|].
  simpl. intro H. apply andb_prop in H. destruct H as [Hc Hs].
  destruct (nameChar_plain c Hc) as (Ha & He & _).
  now rewrite (escaped_cons c s Ha), He, (IH Hs).
Qed.

(** *** One step of the tokenizer *)

Lemma parseElement_step (fuel : nat) (ns : nsenv) (s : string) :
  parseElement (S fuel) ns s
  = (let '(raw, s1) := span (fun c => negb (isNameEnd c)) s in
     let '(rawAttrs, s2, e) := parseAttrs (S (String.length s1)) s1 [] in
     let ns' := declared rawAttrs ns in
     let name := elementName ns' raw in
     let attrs :=
       map (fun nv => mkAttr (attributeName ns' (fst nv)) (snd nv)) rawAttrs in
     match e with
     | BadTag err => (None, s2, Some err)
     | SelfClosed => (Some (Element name attrs [] ""), s2, None)
     | Open =>
         let '(ch, atClose, rest, err) := parseContent fuel ns' raw s2 [] in
         (Some (Element name attrs ch
                  (take (String.length s2 - String.length atClose) s2)),
          rest, err)
     end).
Proof. reflexivity. Qed.

Lemma parseContent_end_tag (fuel : nat) (ns : nsenv) (raw s3 : string)
    (acc : list node) :
  parseContent (S fuel) ns raw (String "<" (String "/" s3)) acc
  = match span (fun c => negb (isGt c)) s3 with
    | (closing, String _ rest) =>
        if fst (span (fun c => negb (isSpace c)) closing) =? raw
        then (rev acc, String "<" (String "/" s3), rest, None)
        else (rev acc, String "<" (String "/" s3), rest,
              Some (closedBy raw
                      (fst (span (fun c => negb (isSpace c)) closing))))
    | (_, EmptyString) =>
        (rev acc, String "<" (String "/" s3), "", Some unexpectedEOF)
    end.
Proof. reflexivity. Qed.

Lemma parseContent_start_tag (fuel : nat) (ns : nsenv) (raw s3 : string)
    (c : ascii) (acc : list node) :
  nameChar c = true ->
  parseContent (S fuel) ns raw (String "<" (String c s3)) acc
  = (let '(el, rest, err) := parseElement fuel ns (String c s3) in
     match err with
     | Some e => (rev (push el acc), rest, rest, Some e)
     | None => parseContent fuel ns raw rest (push el acc)
     end).
Proof.
  destruct c as [[] [] [] [] [] [] [] []]; intro H;
    try (vm_compute in H; discriminate H); reflexivity.
Qed.

Lemma parseContent_close (fuel : nat) (ns : nsenv) (raw tail : string)
    (acc : list node) :
  allChars (fun c => negb (isGt c)) raw = true ->
  allChars (fun c => negb (isSpace c)) raw = true ->
  parseContent (S fuel) ns raw
    (String "<" (String "/" (raw ++ String ">" tail))) acc
  = (rev acc, String "<" (String "/" (raw ++ String ">" tail)), tail, None).
Proof.
  intros Hgt Hsp. rewrite parseContent_end_tag.
  rewrite (span_app_stop _ raw ">" tail Hgt eq_refl).
  rewrite (span_all _ raw Hsp). cbn [fst].
  now rewrite String.eqb_refl.
Qed.

Lemma parseAttrs_open (fuel : nat) (rest : string)
    (acc : list (string * string)) :
  parseAttrs (S fuel) (String ">" rest) acc = (rev acc, rest, Open).
Proof. reflexivity. Qed.

Lemma parseAttrs_name (fuel : nat) (c : ascii) (s' : string)
    (acc : list (string * string)) :
  nameChar c = true ->
  parseAttrs (S fuel) (String " " (String c s')) acc
  = (let '(name, s2) :=
       span (fun c => negb (isNameEnd c)) (String c s') in
     if name =? "" then
       (rev acc, s2, BadTag (syntaxError "expected attribute name in element"))
     else
       match skipSpace s2 with
       | String "=" s3 =>
           match skipSpace s3 with
           | String q s4 =>
               if isQuote q then
                 match span (fun c => negb (Ascii.eqb c q)) s4 with
                 | (v, String _ s5) =>
                     parseAttrs fuel s5 ((name, unescaped v) :: acc)
                 | (_, EmptyString) =>
                     (rev acc, "", BadTag (syntaxError "unexpected EOF"))
                 end
               else
                 (rev acc, s4,
                  BadTag (syntaxError "unquoted or missing attribute value in element"))
           | EmptyString =>
               (rev acc, "", BadTag (syntaxError "unexpected EOF"))
           end
       | _ =>
           (rev acc, s2,
            BadTag (syntaxError "attribute name without = in element"))
       end).
Proof.
  destruct c as [[] [] [] [] [] [] [] []]; intro H;
    try (vm_compute in H; discriminate H); reflexivity.
Qed.

(** One attribute [name="v"] after a space. *)
Lemma parseAttrs_one (fuel : nat) (c : ascii) (n v rest : string)
    (acc : list (string * string)) :
  nameChar c = true ->
  allChars (fun c => negb (isNameEnd c)) n = true ->
  allChars notDq v = true ->
  parseAttrs (S fuel)
    (String " " (String c (n ++ String "=" (String dq (v ++ String dq rest)))))
    acc
  = parseAttrs fuel rest ((String c n, unescaped v) :: acc).
Proof.
  intros Hc Hn Hv. rewrite (parseAttrs_name fuel c _ acc Hc).
  assert (Hcn : allChars (fun c => negb (isNameEnd c)) (String c n) = true).
  { simpl. rewrite Hn. destruct (nameChar_plain c Hc) as (_ & _ & He & _).
    now rewrite He. }
  pose proof (span_app_stop _ (String c n) "="
                (String dq (v ++ String dq rest)) Hcn eq_refl) as Hspan.
  cbn [append] in Hspan. rewrite Hspan.
  cbn [String.eqb Ascii.eqb].
  replace (String c n =? "") with false by reflexivity.
  change (skipSpace (String "=" (String dq (v ++ String dq rest))))
    with (String "=" (String dq (v ++ String dq rest))).
  cbv iota.
  change (skipSpace (String dq (v ++ String dq rest)))
    with (String dq (v ++ String dq rest)).
  cbv iota. change (isQuote dq) with true. cbv iota.
  rewrite (span_app_stop (fun c => negb (Ascii.eqb c dq)) v dq rest Hv
             eq_refl).
  reflexivity.
Qed.


(** *** The wrapper element *)

Lemma declared_xmlns_u (v : string) (ns : nsenv) :
  declared [("xmlns:u", v)] ns = ("u", v) :: ns.
Proof. reflexivity. Qed.

Lemma elementName_u (v : string) (ns : nsenv) (c : ascii) (l : string) :
  elementName (("u", v) :: ns) (String "u" (String ":" (String c l)))
  = mkName v (String c l).
Proof. reflexivity. Qed.

Lemma parseElement_wrapper (q : Name) (body : string) (ch : list node)
    (F : nat) :
  allChars nameChar (Local q) = true ->
  Local q <> "" ->
  payloadReads q body ch ->
  String.length body + 1 < F ->
  exists inner,
    parseElement F [("s", soapNS)] (wrapperText q body envClose)
    = (Some (Element (mkName (unescaped (escaped (Space q))) (Local q))
               [mkAttr (mkName "xmlns" "u") (unescaped (escaped (Space q)))]
               ch inner),
       envClose, None).
Proof.
  intros Hname Hne Hpay HF. destruct F as [|f]; [lia|].
  assert (Hf : String.length body < f) by lia.
  specialize (Hpay f Hf). unfold wrapperNS, wrapperClose in Hpay.
  rewrite parseElement_step. unfold wrapperText.
  rewrite (escaped_nameChars _ Hname).
  pose proof (escaped_notDq (Space q)) as Hv.
  remember (unescaped (escaped (Space q))) as v eqn:Hveq.
  remember (escaped (Space q)) as eS eqn:HeS.
  destruct (Local q) as [|c L] eqn:HL; [contradiction|]. clear Hne.
  unfold env2, env3, env4, env5, quot in *. cbn [append] in *.
  assert (Hall : allChars (fun c => negb (isNameEnd c))
                   ("u:" ++ String c L) = true).
  { cbn [append allChars]. simpl in Hname.
    apply andb_prop in Hname. destruct Hname as [Hc HL'].
    destruct (nameChar_plain c Hc) as (_ & _ & He & _). rewrite He.
    rewrite (allChars_impl nameChar _ L
               (fun d Hd => proj1 (proj2 (proj2 (nameChar_plain d Hd)))) HL').
    reflexivity. }
  match goal with
  | |- context [span _ (String "u" (String ":" (String c (L ++ String " " ?r))))] =>
      pose proof (span_app_stop _ ("u:" ++ String c L) " " r Hall eq_refl)
        as Hspan
  end.
  cbn [append] in Hspan. rewrite Hspan. cbv iota beta.
  cbn [String.length].
  match goal with
  | |- context [parseAttrs (S ?f1)
                  (String " " (String "x" (String "m" (String "l" (String "n"
                     (String "s" (String ":" (String "u" (String "="
                        (String ?d (eS ++ String ?d ?rest))))))))))) []] =>
      pose proof (parseAttrs_one f1 "x" "mlns:u" eS rest [] eq_refl eq_refl Hv)
        as Hattr
  end.
  cbn [append] in Hattr. unfold dq in Hattr. rewrite Hattr.
  rewrite parseAttrs_open. cbn [rev app]. cbv iota beta zeta.
  rewrite declared_xmlns_u, elementName_u. rewrite <- Hveq.
  rewrite Hpay. cbv iota beta. cbn [map fst snd].
  eexists. reflexivity.
Qed.

Lemma parseContent_wrapper (fuel : nat) (ns : nsenv) (raw : string)
    (acc : list node) (q : Name) (body tail : string) :
  parseContent (S fuel) ns raw (String "<" (wrapperText q body tail)) acc
  = (let '(el, rest, err) := parseElement fuel ns (wrapperText q body tail) in
     match err with
     | Some e => (rev (push el acc), rest, rest, Some e)
     | None => parseContent fuel ns raw rest (push el acc)
     end).
Proof.
  unfold wrapperText. cbn [append].
  apply parseContent_start_tag. reflexivity.
Qed.

(** *** The body and the envelope around it *)

Lemma parseElement_body (q : Name) (body : string) (ch : list node)
    (F : nat) :
  allChars nameChar (Local q) = true ->
  Local q <> "" ->
  payloadReads q body ch ->
  String.length body + 3 < F ->
  exists inner binner,
    parseElement F [("s", soapNS)]
      ("s:Body>" ++ String "<" (wrapperText q body envClose))
    = (Some (Element (mkName soapNS "Body") []
               [Element (mkName (unescaped (escaped (Space q))) (Local q))
                  [mkAttr (mkName "xmlns" "u") (unescaped (escaped (Space q)))]
                  ch inner]
               binner),
       "</s:Envelope>", None).
Proof.
  intros Hname Hne Hpay HF.
  destruct F as [|f1]; [lia|]. destruct f1 as [|f2]; [lia|].
  destruct f2 as [|f3]; [lia|].
  destruct (@parseElement_wrapper q body ch (S f3) Hname Hne Hpay) as [inner Hw];
    [lia|].
  rewrite parseElement_step.
  pose proof (span_app_stop (fun c => negb (isNameEnd c)) "s:Body" ">"
                (String "<" (wrapperText q body envClose)) eq_refl eq_refl)
    as Hspan.
  cbn [append] in Hspan |- *. rewrite Hspan. cbv iota beta.
  cbn [String.length]. rewrite parseAttrs_open. cbv iota beta zeta.
  cbn [rev declared map].
  rewrite parseContent_wrapper, Hw. cbv iota beta. cbn [push].
  unfold envClose at 1.
  pose proof (parseContent_close f3 [("s", soapNS)] "s:Body" "</s:Envelope>"
                [Element (mkName (unescaped (escaped (Space q))) (Local q))
                   [mkAttr (mkName "xmlns" "u")
                      (unescaped (escaped (Space q)))] ch inner]
                eq_refl eq_refl) as Hclose.
  cbn [append] in Hclose. rewrite Hclose. cbv iota beta. cbn [rev app].
  eexists. eexists. reflexivity.
Qed.

Lemma envelope_declared :
  declared [("xmlns:s", unescaped soapNS);
            ("s:encodingStyle", unescaped soapEncoding)] []
  = [("s", soapNS)].
Proof. vm_compute. reflexivity. Qed.

Lemma parseElement_envelope (q : Name) (body : string) (ch : list node)
    (F : nat) :
  allChars nameChar (Local q) = true ->
  Local q <> "" ->
  payloadReads q body ch ->
  String.length body + 5 < F ->
  exists attrs inner binner winner,
    parseElement F []
      (envelopeText ("<s:Body>" ++ String "<" (wrapperText q body envClose)))
    = (Some (Element (mkName soapNS "Envelope") attrs
               [Element (mkName soapNS "Body") []
                  [Element (mkName (unescaped (escaped (Space q))) (Local q))
                     [mkAttr (mkName "xmlns" "u")
                        (unescaped (escaped (Space q)))]
                     ch winner]
                  binner]
               inner),
       "", None).
Proof.
  intros Hname Hne Hpay HF.
  destruct F as [|f1]; [lia|]. destruct f1 as [|f2]; [lia|].
  destruct f2 as [|f3]; [lia|].
  destruct (@parseElement_body q body ch (S f3) Hname Hne Hpay)
    as (winner & binner & Hb); [lia|].
  cbn [append] in Hb.
  rewrite parseElement_step.
  unfold envelopeText, quot. cbn [append].
  match goal with
  | |- context [span _ (String "s" (String ":" (String "E" (String "n"
                  (String "v" (String "e" (String "l" (String "o"
                  (String "p" (String "e" (String " " ?r)))))))))))] =>
      pose proof (span_app_stop (fun c => negb (isNameEnd c)) "s:Envelope"
                    " " r eq_refl eq_refl) as Hspan
  end.
  cbn [append] in Hspan. rewrite Hspan. cbv iota beta.
  cbn [String.length].
  match goal with
  | |- context [parseAttrs (S ?f) (String " " (String "x" (String "m"
                  (String "l" (String "n" (String "s" (String ":" (String "s"
                  (String "=" (String ?d (soapNS ++ String ?d ?rest))))))))))) []] =>
      pose proof (parseAttrs_one f "x" "mlns:s" soapNS rest [] eq_refl eq_refl
                    eq_refl) as Hattr1
  end.
  cbn [append] in Hattr1. unfold dq in Hattr1. rewrite Hattr1.
  match goal with
  | |- context [parseAttrs (S ?f) (String " " (String "s" (String ":"
                  (String "e" (String "n" (String "c" (String "o" (String "d"
                  (String "i" (String "n" (String "g" (String "S" (String "t"
                  (String "y" (String "l" (String "e" (String "="
                  (String ?d (soapEncoding ++ String ?d ?rest)))))))))))))))))))
                  ?acc] =>
      pose proof (parseAttrs_one f "s" ":encodingStyle" soapEncoding rest acc
                    eq_refl eq_refl eq_refl) as Hattr2
  end.
  cbn [append] in Hattr2. unfold dq in Hattr2. rewrite Hattr2.
  rewrite parseAttrs_open. cbv iota beta zeta. cbn [rev app].
  rewrite envelope_declared.
  change (elementName [("s", soapNS)] "s:Envelope")
    with (mkName soapNS "Envelope").
  rewrite (parseContent_start_tag (S f3) [("s", soapNS)] "s:Envelope" _ "s" []
             eq_refl).
  rewrite Hb. cbv iota beta. cbn [push].
  pose proof (parseContent_close f3 [("s", soapNS)] "s:Envelope" ""
                [Element (mkName soapNS "Body") []
                   [Element (mkName (unescaped (escaped (Space q))) (Local q))
                      [mkAttr (mkName "xmlns" "u")
                         (unescaped (escaped (Space q)))] ch winner]
                   binner]
                eq_refl eq_refl) as Hclose.
  cbn [append] in Hclose. rewrite Hclose. cbv iota beta. cbn [rev app].
  do 4 eexists. reflexivity.
Qed.

(** *** The whole stream *)

Lemma framed_text (q : Name) (body : string) :
  framed q body
  = xml_Header
    ++ String "<" (envelopeText ("<s:Body>"
                                 ++ String "<" (wrapperText q body envClose))).
Proof. reflexivity. Qed.

Lemma tokenize_header (X : string) :
  tokenize (xml_Header ++ String "<" (String "s" X))
  = match parseElement (S (String.length (String "s" X))) [] (String "s" X) with
    | (Some el, _, None) => Document el
    | (None, _, None) => Broken None unexpectedEOF
    | (el, _, Some e) => Broken el e
    end.
Proof. reflexivity. Qed.

(** The tokenizer reads the envelope that [Write] produces, for a local
    name of name bytes, as an envelope with one body that holds the
    wrapper element alone, whatever the namespace. *)
Lemma tokenize_framed (q : Name) (body : string) (ch : list node) :
  allChars nameChar (Local q) = true ->
  Local q <> "" ->
  payloadReads q body ch ->
  exists attrs inner binner winner,
    tokenize (framed q body)
    = Document
        (Element (mkName soapNS "Envelope") attrs
           [Element (mkName soapNS "Body") []
              [Element (mkName (unescaped (escaped (Space q))) (Local q))
                 [mkAttr (mkName "xmlns" "u") (unescaped (escaped (Space q)))]
                 ch winner]
              binner]
           inner).
Proof.
  intros Hname Hne Hpay. rewrite framed_text.
  assert (HF : String.length body + 5
               < S (String.length
                      (envelopeText ("<s:Body>"
                         ++ String "<" (wrapperText q body envClose))))).
  { unfold envelopeText, wrapperText.
    repeat (cbn [String.length]; rewrite ?length_append). lia. }
  destruct (@parseElement_envelope q body ch _ Hname Hne Hpay HF)
    as (attrs & inner & binner & winner & He).
  exists attrs, inner, binner, winner.
  revert He. unfold envelopeText at 1 2 3. unfold quot. cbn [append].
  intro He. rewrite tokenize_header, He. reflexivity.
Qed.

(** C4, amended: for a name whose local name is a non-empty XML name of
    ASCII letters, digits, [_], [-] and [.] other than [Fault], with any
    namespace, and a payload [p] that the encoder marshals without error
    into bytes that the tokenizer reads, inside the wrapper, as content
    from which the decoder rebuilds [p]: [Write] succeeds, and [Read] of
    the bytes it has written succeeds, with no fault and no error, and
    yields the payload [p]. *)
Theorem Write_Read_roundtrip (P : Type)
    (enc : P -> list string * option error)
    (unmarshalArgs : node -> P -> P * option error)
    (q : Name) (p target : P) (ch : list node) :
  allChars nameChar (Local q) = true ->
  Local q <> "" ->
  Local q <> "Fault" ->
  snd (enc p) = None ->
  payloadReads q (joined (fst (enc p))) ch ->
  forEach (unmarshalActionChild unmarshalArgs) ch target = (p, None) ->
  snd (Write enc "" (mkAction q p)) = None
  /\ Read unmarshalArgs tokenize (fst (Write enc "" (mkAction q p)))
       (mkAction q target)
     = (mkAction (mkName (unescaped (escaped (Space q))) (Local q)) p, None).
Proof.
  intros Hname Hne Hq Henc Hpay Hargs.
  rewrite (@Write_Buffer P enc (mkAction q p) "" Henc).
  cbn [fst snd XMLName Args append].
  split; [reflexivity|].
  destruct (@tokenize_framed q _ ch Hname Hne Hpay)
    as (attrs & inner & binner & winner & Htok).
  rewrite (@Read_one_element P unmarshalArgs string tokenize
             (framed q (joined (fst (enc p)))) (mkAction q target) _
             (mkName (unescaped (escaped (Space q))) (Local q)) _ ch winner
             Htok eq_refl eq_refl Hq).
  cbn [Args]. rewrite Hargs. reflexivity.
Qed.

Lemma Write_Read_roundtrip_witness :
  snd (Write encodeSample "" (mkAction (mkName "urn:example" "GetStatus")
                                (mkSample "on"))) = None
  /\ Read unmarshalSample tokenize
       (fst (Write encodeSample "" (mkAction (mkName "urn:example" "GetStatus")
                                      (mkSample "on"))))
       (mkAction (mkName "urn:example" "GetStatus") (mkSample ""))
     = (mkAction (mkName (unescaped (escaped "urn:example")) "GetStatus")
          (mkSample "on"), None).
Proof.
  apply (@Write_Read_roundtrip Sample encodeSample unmarshalSample
           (mkName "urn:example" "GetStatus") (mkSample "on") (mkSample "")
           sampleNodes).
  - reflexivity.
  - discriminate.
  - discriminate.
  - reflexivity.
  - intros fuel Hf. simpl in Hf.
    replace fuel with (35 + (fuel - 35)) by lia.
    generalize (fuel - 35). intro k. vm_compute. reflexivity.
  - reflexivity.
Defined.

Example roundtrip_name :
  mkName (unescaped (escaped "urn:example")) "GetStatus"
  = mkName "urn:example" "GetStatus".
Proof. vm_compute. reflexivity. Qed.
